(** * gorse, package core: the DataSet of core/data.go

    A shallow embedding of [NewDataSet], [GetDense], [UserCount],
    [ItemCount], [GetUserRatingsSet] and [LoadDataFromCSV], together with
    the parts of package base and of the Table interface they call.

    Conventions.
    - Go's [int] is [Z]; identifiers are only stored, compared and used as
      indices, never computed with.
    - Go's [float64] is Rocq's primitive binary64 [float].
    - A run-time panic (index out of range) is [None] in the [option] monad.
    - A closure that mutates captured variables is a function on the
      captured state. *)

From Stdlib Require Import ZArith List String Ascii Floats QArith Qcanon Permutation Lia.
From stdpp Require Import gmap list.

Open Scope Z_scope.

(** ** Slices *)

(** [s[i]] on a Go slice: panics unless [0 <= i < len(s)]. *)
Definition index {A : Type} (s : list A) (i : Z) : option A :=
  if decide (0 <= i) then s !! Z.to_nat i else None.

(** [len(s)] as a Go [int]. *)
Definition len {A : Type} (s : list A) : Z := Z.of_nat (length s).

(** [s[i] = x] on a Go slice: panics unless [0 <= i < len(s)]. *)
Definition store {A : Type} (s : list A) (i : Z) (x : A) : option (list A) :=
  match index s i with
  | Some _ => Some (<[Z.to_nat i := x]> s)
  | None => None
  end.

(** ** Package base *)

Module SparseIdSet.

(** The fields are those the test file builds a [base.SparseIdSet] from. *)
Record t : Type := mk {
  DenseIds : gmap Z Z;
  SparseIds : list Z
}.

(** Modelled from the spec: [base.NewSparseIdSet], the empty
    IdentifierSet. *)
Definition NewSparseIdSet : t := {| DenseIds := ∅; SparseIds := [] |}.

(** Modelled from the spec: [count()], the number of distinct sparse ids
    registered. *)
Definition Len (set : t) : Z := len (SparseIds set).

(** Modelled from the spec: [add(sparseId)] registers [sparseId] if
    unseen, assigning it the next sequential dense id ([count] before the
    call); no-op otherwise. *)
Definition Add (set : t) (sparseId : Z) : t :=
  match DenseIds set !! sparseId with
  | Some _ => set
  | None => {| DenseIds := <[sparseId := Len set]> (DenseIds set);
               SparseIds := SparseIds set ++ [sparseId] |}
  end.

(** Modelled from the spec: [toDense(sparseId)] returns the dense id of a
    known sparse id; for an unregistered id it silently returns a
    zero/default value rather than signalling absence (the read of a Go
    map at a missing key). *)
Definition ToDenseId (set : t) (sparseId : Z) : Z :=
  default 0 (DenseIds set !! sparseId).

(** Modelled from the spec: [toSparse(denseId)] is the inverse lookup;
    [denseId] must be in [[0, count)], the read of the slice panics
    otherwise. *)
Definition ToSparseId (set : t) (denseId : Z) : option Z :=
  index (SparseIds set) denseId.

End SparseIdSet.

Module SparseVector.

(** The fields are those the test file builds a [base.SparseVector]
    from. *)
Record t : Type := mk {
  Indices : list Z;
  Values : list float
}.

(** Modelled from the spec: the empty SparseVector. *)
Definition NewSparseVector : t := {| Indices := []; Values := [] |}.

(** Modelled from the spec: an ordered, append-only list of (index, value)
    pairs; duplicate indices are not merged or overwritten, each append is
    retained as a distinct pair. *)
Definition Add (vec : t) (idx : Z) (value : float) : t :=
  {| Indices := Indices vec ++ [idx]; Values := Values vec ++ [value] |}.

(** The loop of [ForEach] from position [i] on: the remaining indices are
    [indices], and [Values[i]] is read at each step. *)
Fixpoint ForEach_from {S : Type} (values : list float)
    (f : Z -> Z -> float -> S -> option S)
    (i : nat) (indices : list Z) (s : S) : option S :=
  match indices with
  | [] => Some s
  | idx :: rest =>
      match values !! i with
      | Some value =>
          match f (Z.of_nat i) idx value s with
          | Some s' => ForEach_from values f (Datatypes.S i) rest s'
          | None => None
          end
      | None => None
      end
  end.

(** Modelled from the spec: [ForEach] iterates the pairs of the vector in
    order, calling [f(i, Indices[i], Values[i])]. The callback acts on the
    state [S] it captures and may panic. *)
Definition ForEach {S : Type} (vec : t)
    (f : Z -> Z -> float -> S -> option S) (s : S) : option S :=
  ForEach_from (Values vec) f 0%nat (Indices vec) s.

(** The pairs a vector holds, in order. *)
Definition pairs (vec : t) : list (Z * float) := zip (Indices vec) (Values vec).

End SparseVector.

(** Modelled from the spec: [base.NewDenseSparseMatrix(row)] allocates the
    array with exactly [row] empty SparseVectors. *)
Definition NewDenseSparseMatrix (row : Z) : list SparseVector.t :=
  replicate (Z.to_nat row) SparseVector.NewSparseVector.

(** [mat[row].Add(idx, value)]: the vector behind the pointer [mat[row]]
    is extended in place; no two rows share a vector. *)
Definition matrix_Add (mat : list SparseVector.t) (row idx : Z) (value : float)
    : option (list SparseVector.t) :=
  match index mat row with
  | Some vec => store mat row (SparseVector.Add vec idx value)
  | None => None
  end.

(** ** The raw table *)

Module Table.

(** Modelled from the spec: the RawTable, an ordered sequence of
    [(userId, itemId, rating)] triples; it stands for the [Table] interface
    value the constructor receives. *)
Definition t : Type := list (Z * Z * float).

(** Modelled from the spec: [length()], the number of records. *)
Definition Len (table : t) : Z := len table.

(** Modelled from the spec: [get(i)] returns the raw triple at position [i]
    unchanged; the read panics outside [[0, length)]. *)
Definition Get (table : t) (i : Z) : option (Z * Z * float) := index table i.

(** Modelled from the spec: a scan of every record in order. The callback
    acts on the state [S] it captures. *)
Definition ForEach {S : Type} (table : t) (f : Z -> Z -> float -> S -> S) (s : S) : S :=
  fold_left (fun acc '(userId, itemId, rating) => f userId itemId rating acc) table s.

(** The ratings of the records, in order. *)
Definition ratings (table : t) : list float := map snd table.

(** [float64(n)] for a length [n]. *)
Definition float64_of_int (n : Z) : float := PrimFloat.of_uint63 (Uint63.of_Z n).

(** Modelled from the spec: the mean is the arithmetic average of all
    rating values, the binary64 sum divided by the number of records
    (NaN for zero records). *)
Definition Mean (table : t) : float :=
  (fold_left PrimFloat.add (ratings table) 0%float / float64_of_int (Len table))%float.

(** Modelled from the spec: [NewDataTable(users, items, ratings)] builds the
    raw table whose record [i] is [(users[i], items[i], ratings[i])]. *)
Definition NewDataTable (users items : list Z) (rs : list float) : t :=
  zip (zip users items) rs.

End Table.

(** ** The DataSet *)

Record DataSet : Type := mkDataSet {
  Table_ : Table.t;
  GlobalMean : float;
  DenseUserIds : list Z;
  DenseItemIds : list Z;
  DenseUserRatings : list SparseVector.t;
  DenseItemRatings : list SparseVector.t;
  UserIdSet : SparseIdSet.t;
  ItemIdSet : SparseIdSet.t
}.

(** UserCount returns the number of users. *)
Definition UserCount (dataSet : DataSet) : Z := SparseIdSet.Len (UserIdSet dataSet).

(** ItemCount returns the number of items. *)
Definition ItemCount (dataSet : DataSet) : Z := SparseIdSet.Len (ItemIdSet dataSet).

(** The body of the first closure of [NewDataSet] (lines 39-44), acting on
    the captured [set]. *)
Definition pass1 (userId itemId : Z) (rating : float) (set : DataSet) : DataSet :=
  let uset := SparseIdSet.Add (UserIdSet set) userId in
  let iset := SparseIdSet.Add (ItemIdSet set) itemId in
  {| Table_ := Table_ set; GlobalMean := GlobalMean set;
     DenseUserIds := DenseUserIds set ++ [SparseIdSet.ToDenseId uset userId];
     DenseItemIds := DenseItemIds set ++ [SparseIdSet.ToDenseId iset itemId];
     DenseUserRatings := DenseUserRatings set;
     DenseItemRatings := DenseItemRatings set;
     UserIdSet := uset; ItemIdSet := iset |}.

(** The body of the second closure of [NewDataSet] (lines 48-53). The state
    is [None] once an index expression has panicked. *)
Definition pass2 (userId itemId : Z) (rating : float) (st : option DataSet) : option DataSet :=
  set ← st;
  let userDenseId := SparseIdSet.ToDenseId (UserIdSet set) userId in
  let itemDenseId := SparseIdSet.ToDenseId (ItemIdSet set) itemId in
  urs ← matrix_Add (DenseUserRatings set) userDenseId itemDenseId rating;
  irs ← matrix_Add (DenseItemRatings set) itemDenseId userDenseId rating;
  Some {| Table_ := Table_ set; GlobalMean := GlobalMean set;
          DenseUserIds := DenseUserIds set; DenseItemIds := DenseItemIds set;
          DenseUserRatings := urs; DenseItemRatings := irs;
          UserIdSet := UserIdSet set; ItemIdSet := ItemIdSet set |}.

(** The DataSet when the first scan is over and the two SparseVector arrays
    have just been allocated (lines 31-47): [set] starts as [new(DataSet)]
    with its table, mean, empty dense-id slices and fresh id sets assigned
    (lines 31-38), the first closure runs over the table, and the arrays are
    made with [UserCount()] and [ItemCount()] rows. *)
Definition NewDataSet_allocated (table : Table.t) : DataSet :=
  let set := {| Table_ := table; GlobalMean := Table.Mean table;
                DenseUserIds := []; DenseItemIds := [];
                DenseUserRatings := []; DenseItemRatings := [];
                UserIdSet := SparseIdSet.NewSparseIdSet;
                ItemIdSet := SparseIdSet.NewSparseIdSet |} in
  let set := Table.ForEach table pass1 set in
  {| Table_ := Table_ set; GlobalMean := GlobalMean set;
     DenseUserIds := DenseUserIds set; DenseItemIds := DenseItemIds set;
     DenseUserRatings := NewDenseSparseMatrix (UserCount set);
     DenseItemRatings := NewDenseSparseMatrix (ItemCount set);
     UserIdSet := UserIdSet set; ItemIdSet := ItemIdSet set |}.

(** NewDataSet creates a train set from a raw Data set. *)
Definition NewDataSet (table : Table.t) : option DataSet :=
  Table.ForEach table pass2 (Some (NewDataSet_allocated table)).

(** GetDense get the i-th record by <denseUserId, denseItemId, rating>. *)
Definition GetDense (dataSet : DataSet) (i : Z) : option (Z * Z * float) :=
  '(_, _, rating) ← Table.Get (Table_ dataSet) i;
  denseUserId ← index (DenseUserIds dataSet) i;
  denseItemId ← index (DenseItemIds dataSet) i;
  Some (denseUserId, denseItemId, rating).

(** GetUserRatingsSet gets a user's ratings by the sparse user ID. The
    returned object is a map between item sparse IDs and given ratings. *)
Definition GetUserRatingsSet (dataSet : DataSet) (userId : Z) : option (gmap Z float) :=
  let denseUserId := SparseIdSet.ToDenseId (UserIdSet dataSet) userId in
  vec ← index (DenseUserRatings dataSet) denseUserId;
  SparseVector.ForEach vec
    (fun _ idx value set =>
       itemId ← SparseIdSet.ToSparseId (ItemIdSet dataSet) idx;
       Some (<[itemId := value]> set))
    ∅.

(** ** Well-formedness of the structures *)

Module IdSetWf.
Import SparseIdSet.

(** The two directions of the mapping agree, and dense ids are exactly the
    positions of [SparseIds]. *)
Record wf (set : t) : Prop := {
  wf_dense : forall s d, DenseIds set !! s = Some d -> index (SparseIds set) d = Some s;
  wf_sparse : forall d s, index (SparseIds set) d = Some s -> DenseIds set !! s = Some d
}.

End IdSetWf.

(** ** What the constructor establishes *)

(** The user, the item and the rating of a raw record. *)
Definition user_of (rec : Z * Z * float) : Z := rec.1.1.
Definition item_of (rec : Z * Z * float) : Z := rec.1.2.
Definition rating_of (rec : Z * Z * float) : float := rec.2.

(** The SparseVector holding the pairs [l], in order. *)
Definition vector_of (l : list (Z * float)) : SparseVector.t :=
  {| SparseVector.Indices := l.*1; SparseVector.Values := l.*2 |}.

(** The pairs of the records of [p] whose key is the dense id [d], in the
    order of the records: [(other rec, rating rec)] for each such record. *)
Definition row (key other : Z * Z * float -> Z) (p : Table.t) (d : Z) : list (Z * float) :=
  flat_map (fun rec => if decide (key rec = d) then [(other rec, rating_of rec)] else []) p.

(** The dense user id and the dense item id of a raw record in a DataSet. *)
Definition udense (set : DataSet) (rec : Z * Z * float) : Z :=
  SparseIdSet.ToDenseId (UserIdSet set) (user_of rec).
Definition idense (set : DataSet) (rec : Z * Z * float) : Z :=
  SparseIdSet.ToDenseId (ItemIdSet set) (item_of rec).

(** All the rating values a SparseVector array holds, row after row. *)
Definition matrix_values (mat : list SparseVector.t) : list float :=
  concat (SparseVector.Values <$> mat).

(** [built table p set]: the state of the DataSet once [NewDataSet table]
    has scanned all of [table] in its first pass and the records [p] in its
    second pass. *)
Record built (table p : Table.t) (set : DataSet) : Prop := {
  b_table : Table_ set = table;
  b_mean : GlobalMean set = Table.Mean table;
  b_uset : UserIdSet set = UserIdSet (NewDataSet_allocated table);
  b_iset : ItemIdSet set = ItemIdSet (NewDataSet_allocated table);
  b_uwf : IdSetWf.wf (UserIdSet set);
  b_iwf : IdSetWf.wf (ItemIdSet set);
  b_ureg : forall rec, rec ∈ table ->
    is_Some (SparseIdSet.DenseIds (UserIdSet set) !! user_of rec);
  b_ireg : forall rec, rec ∈ table ->
    is_Some (SparseIdSet.DenseIds (ItemIdSet set) !! item_of rec);
  b_uids : DenseUserIds set = map (udense set) table;
  b_iids : DenseItemIds set = map (idense set) table;
  b_ulen : len (DenseUserRatings set) = UserCount set;
  b_ilen : len (DenseItemRatings set) = ItemCount set;
  b_urows : forall d, 0 <= d < UserCount set ->
    index (DenseUserRatings set) d = Some (vector_of (row (udense set) (idense set) p d));
  b_irows : forall d, 0 <= d < ItemCount set ->
    index (DenseItemRatings set) d = Some (vector_of (row (idense set) (udense set) p d));
  b_uvals : Permutation (matrix_values (DenseUserRatings set)) (Table.ratings p);
  b_ivals : Permutation (matrix_values (DenseItemRatings set)) (Table.ratings p)
}.

(** The state of the first pass after the records [p]. *)
Record scanned (p : Table.t) (set : DataSet) : Prop := {
  s_uwf : IdSetWf.wf (UserIdSet set);
  s_iwf : IdSetWf.wf (ItemIdSet set);
  s_ureg : forall rec, rec ∈ p -> is_Some (SparseIdSet.DenseIds (UserIdSet set) !! user_of rec);
  s_ireg : forall rec, rec ∈ p -> is_Some (SparseIdSet.DenseIds (ItemIdSet set) !! item_of rec);
  s_uids : DenseUserIds set = map (udense set) p;
  s_iids : DenseItemIds set = map (idense set) p
}.

(** ** Exact sums of ratings *)

(** The rational number a finite binary64 value denotes, [(-1)^s * m * 2^e].
    An infinity or a NaN denotes no number and counts as [0]. *)
Definition exact (x : float) : Qc :=
  match Prim2SF x with
  | S754_finite s m e =>
      Q2Qc (inject_Z (if s then Z.neg m else Z.pos m) * Qpower (inject_Z 2) e)
  | _ => Q2Qc 0
  end.

(** The sum of the rating values of [l], as an exact rational: it does not
    depend on the order of summation. *)
Definition sum_exact (l : list float) : Qc :=
  fold_right (fun x acc => Qcplus (exact x) acc) (Q2Qc 0) l.

(** ** The contract of the per-user lookup *)

(** The closure of [GetUserRatingsSet] (lines 78-81) run over the pairs of a
    vector, in order, from the map [set]. *)
Fixpoint materialize (items : SparseIdSet.t) (pairs : list (Z * float))
    (set : gmap Z float) : option (gmap Z float) :=
  match pairs with
  | [] => Some set
  | (idx, value) :: rest =>
      match SparseIdSet.ToSparseId items idx with
      | Some itemId => materialize items rest (<[itemId := value]> set)
      | None => None
      end
  end.

(** The rating the contract promises for the sparse item id [itemId]: the
    value of the last pair of the vector whose dense index converts to
    [itemId], if there is one. *)
Definition last_rating (items : SparseIdSet.t) (pairs : list (Z * float))
    (itemId : Z) : option float :=
  last (omap (fun p : Z * float =>
                if decide (SparseIdSet.ToSparseId items p.1 = Some itemId)
                then Some p.2 else None) pairs).

(** The DataSet literal of [TestDataSet_GetUserRatingsSet]; the fields the
    literal leaves out have their zero values. *)
Definition test_DataSet : DataSet :=
  {| Table_ := []; GlobalMean := 0%float;
     DenseUserIds := []; DenseItemIds := [];
     DenseUserRatings :=
       [ {| SparseVector.Indices := [1; 2];
            SparseVector.Values := [10%float; 20%float] |} ];
     DenseItemRatings := [];
     UserIdSet := {| SparseIdSet.DenseIds := {[ 2 := 0 ]};
                     SparseIdSet.SparseIds := [2] |};
     ItemIdSet := {| SparseIdSet.DenseIds := {[ 0 := 0; 2 := 1; 4 := 2; 6 := 3 ]};
                     SparseIdSet.SparseIds := [0; 2; 4; 6] |} |}.

(** A raw table with two users, two items and the pair (5, 7) rated twice. *)
Definition sample_table : Table.t :=
  [(5, 7, 3%float); (6, 7, 4%float); (5, 8, 1%float); (5, 7, 2%float)].

(** ** The CSV loader *)

(** The functions of Go's standard library that [LoadDataFromCSV] calls. *)

Module strings.

(** [strings.HasPrefix(s, prefix)]. *)
Fixpoint HasPrefix (s prefix : string) : bool :=
  match prefix, s with
  | EmptyString, _ => true
  | String p prefix', String c s' => if Ascii.eqb p c then HasPrefix s' prefix' else false
  | String _ _, EmptyString => false
  end.

(** The scan of [strings.Split] for a non-empty separator: [skip] bytes of
    a separator found earlier remain to be dropped, and [cur] is the field
    read so far. *)
Fixpoint split_from (sep s : string) (skip : nat) (cur : string) : list string :=
  match s with
  | EmptyString => [cur]
  | String c s' =>
      match skip with
      | S skip' => split_from sep s' skip' cur
      | O =>
          if HasPrefix s sep
          then cur :: split_from sep s' (String.length sep - 1) EmptyString
          else split_from sep s' 0 (cur ++ String c EmptyString)
      end
  end.

(** The value of a byte. *)
Definition byte (c : ascii) : Z := Z.of_nat (nat_of_ascii c).

(** The first byte of [s] exists and lies in [[lo, hi]]. *)
Definition byte_in (lo hi : Z) (s : string) : bool :=
  match s with
  | String c _ => bool_decide (lo <= byte c <= hi)
  | EmptyString => false
  end.

(** The tables [first] and [acceptRanges] of [unicode/utf8]: for a byte
    that begins a sequence of several bytes, the length of the sequence and
    the range its second byte must lie in. The other bytes (ASCII, and the
    bytes that begin no sequence) give [None]. *)
Definition lead (b : Z) : option (nat * Z * Z) :=
  if decide (194 <= b <= 223) then Some (2%nat, 128, 191)
  else if decide (b = 224) then Some (3%nat, 160, 191)
  else if decide (225 <= b <= 236) then Some (3%nat, 128, 191)
  else if decide (b = 237) then Some (3%nat, 128, 159)
  else if decide (238 <= b <= 239) then Some (3%nat, 128, 191)
  else if decide (b = 240) then Some (4%nat, 144, 191)
  else if decide (241 <= b <= 243) then Some (4%nat, 128, 191)
  else if decide (b = 244) then Some (4%nat, 128, 143)
  else None.

(** The size [utf8.DecodeRuneInString(s)] returns: the length of the UTF-8
    sequence at the head of [s], and 1 for a byte that begins no well-formed
    sequence. *)
Definition rune_size (s : string) : nat :=
  match s with
  | EmptyString => 0%nat
  | String c0 s1 =>
      match lead (byte c0) with
      | None => 1%nat
      | Some (sz, lo, hi) =>
          if decide (String.length s < sz)%nat then 1%nat
          else if negb (byte_in lo hi s1) then 1%nat
          else if decide (sz <= 2)%nat then 2%nat
          else
            match s1 with
            | EmptyString => 1%nat
            | String _ s2 =>
                if negb (byte_in 128 191 s2) then 1%nat
                else if decide (sz <= 3)%nat then 3%nat
                else
                  match s2 with
                  | EmptyString => 1%nat
                  | String _ s3 => if negb (byte_in 128 191 s3) then 1%nat else 4%nat
                  end
            end
      end
  end.

(** The loop of [explode]: [skip] bytes of the sequence begun earlier
    remain to be taken, and [cur] holds the bytes taken so far. *)
Fixpoint explode_from (s : string) (skip : nat) (cur : string) : list string :=
  match s with
  | EmptyString => []
  | String c s' =>
      match skip with
      | S O => (cur ++ String c EmptyString)%string :: explode_from s' 0 EmptyString
      | S skip' => explode_from s' skip' (cur ++ String c EmptyString)
      | O =>
          match rune_size s with
          | S (S skip') => explode_from s' (S skip') (String c EmptyString)
          | _ => String c EmptyString :: explode_from s' 0 EmptyString
          end
      end
  end.

(** The empty separator: [explode(s, -1)] cuts [s] after each UTF-8
    sequence; a byte that begins no well-formed sequence is cut off alone. *)
Definition explode (s : string) : list string := explode_from s 0 EmptyString.

(** [strings.Split(s, sep)]: the substrings of [s] between the occurrences
    of [sep], found from left to right. *)
Definition Split (s sep : string) : list string :=
  match sep with
  | EmptyString => explode s
  | String _ _ => split_from sep s 0 EmptyString
  end.

End strings.

Module strconv.

(** The two errors of [*strconv.NumError]. *)
Inductive NumError : Type := ErrSyntax | ErrRange.

(** The value of a decimal digit. *)
Definition digit (c : ascii) : option Z :=
  let n := Z.of_nat (nat_of_ascii c) in
  if decide (48 <= n <= 57) then Some (n - 48) else None.

Definition MaxUint64 : Z := 18446744073709551615.
Definition MaxInt64 : Z := 9223372036854775807.
Definition MinInt64 : Z := -9223372036854775808.

(** How the digit loop of [ParseUint] ends: with the number read, at a byte
    that is no decimal digit, or at the digit with which the number no
    longer fits a [uint64]. *)
Inductive scanned_uint : Type :=
| UintValue (n : Z)
| UintSyntax
| UintRange.

(** The digit loop of [ParseUint(s, 10, 64)] from the number [n] read so
    far. It returns at the first byte that is no digit and at the first digit
    that overflows, whatever follows. *)
Fixpoint parse_uint (s : string) (n : Z) : scanned_uint :=
  match s with
  | EmptyString => UintValue n
  | String c s' =>
      match digit c with
      | None => UintSyntax
      | Some d =>
          if decide (MaxUint64 < 10 * n + d) then UintRange
          else parse_uint s' (10 * n + d)
      end
  end.

(** [ParseInt] after the sign is picked off: [ParseUint] on the rest
    [body], then the range check against [int64]. *)
Definition parse_int (neg : bool) (body : string) : Z * option NumError :=
  match body with
  | EmptyString => (0, Some ErrSyntax)
  | String _ _ =>
      match parse_uint body 0 with
      | UintSyntax => (0, Some ErrSyntax)
      | UintRange => (if neg then MinInt64 else MaxInt64, Some ErrRange)
      | UintValue n =>
          if neg then
            if decide (- MinInt64 < n) then (MinInt64, Some ErrRange) else (- n, None)
          else
            if decide (MaxInt64 < n) then (MaxInt64, Some ErrRange) else (n, None)
      end
  end.

(** [strconv.Atoi(s)], that is [ParseInt(s, 10, 0)] on a 64-bit platform:
    an optional sign, then decimal digits. On a syntax error the value is
    0; when the number does not fit, the value is the nearest bound of [int]
    and the error is [ErrRange]. The digits are read from the left, so a
    number that overflows [uint64] is a range error even when a byte that
    is no digit follows. *)
Definition Atoi (s : string) : Z * option NumError :=
  match s with
  | EmptyString => (0, Some ErrSyntax)
  | String c s' =>
      if Ascii.eqb c "-" then parse_int true s'
      else if Ascii.eqb c "+" then parse_int false s'
      else parse_int false s
  end.

(** *** A reading of decimal floating-point numerals *)

(** The longest run of decimal digits at the head of [s]: the number read
    after [acc], how many digits were read, and the rest of [s]. *)
Fixpoint read_digits (s : string) (acc : Z) (n : Z) : Z * Z * string :=
  match s with
  | EmptyString => (acc, n, s)
  | String c s' =>
      match digit c with
      | Some d => read_digits s' (10 * acc + d) (n + 1)
      | None => (acc, n, s)
      end
  end.

(** The digits of an exponent; past 10000 further digits are ignored. *)
Fixpoint read_exponent (s : string) (e : Z) : option Z :=
  match s with
  | EmptyString => Some e
  | String c s' =>
      match digit c with
      | Some d => read_exponent s' (if decide (e < 10000) then 10 * e + d else e)
      | None => None
      end
  end.

(** The optional exponent part: [e] or [E], an optional sign, at least one
    digit, and the end of the string. *)
Definition exponent_part (s : string) : option Z :=
  match s with
  | EmptyString => Some 0
  | String c s' =>
      if Ascii.eqb c "e" || Ascii.eqb c "E" then
        match s' with
        | EmptyString => None
        | String c' s'' =>
            if Ascii.eqb c' "-" then
              match s'' with EmptyString => None | _ => Z.opp <$> read_exponent s'' 0 end
            else if Ascii.eqb c' "+" then
              match s'' with EmptyString => None | _ => read_exponent s'' 0 end
            else read_exponent s' 0
        end
      else None
  end.

(** A decimal numeral [digits [. digits] [exponent]] with at least one
    digit: its digits read as one integer [m] and the power of ten [e]
    such that the numeral stands for [m * 10^e]. *)
Definition unsigned_float (s : string) : option (Z * Z) :=
  let '(int_part, n1, s1) := read_digits s 0 0 in
  let '(m, n2, s2) :=
    match s1 with
    | String c s1' => if Ascii.eqb c "." then read_digits s1' int_part 0 else (int_part, 0, s1)
    | EmptyString => (int_part, 0, s1)
    end in
  if decide (n1 + n2 = 0) then None
  else e ← exponent_part s2; Some (m, e - n2).

(** An optional sign, then [unsigned_float]. *)
Definition signed_float (s : string) : option (bool * Z * Z) :=
  match s with
  | EmptyString => None
  | String c s' =>
      if Ascii.eqb c "-" then '(m, e) ← unsigned_float s'; Some (true, m, e)
      else if Ascii.eqb c "+" then '(m, e) ← unsigned_float s'; Some (false, m, e)
      else '(m, e) ← unsigned_float s; Some (false, m, e)
  end.

(** [(-1)^neg * m * 10^e] rounded to the nearest value, ties to even, of the
    binary format with precision [prec] and exponent bound [emax]. *)
Definition round_decimal (prec emax : Z) (neg : bool) (m e : Z) : spec_float :=
  match m with
  | Z.pos p =>
      if decide (0 <= e)
      then binary_normalize prec emax (if neg then - (m * 10 ^ e) else m * 10 ^ e) 0 false
      else SFdiv prec emax (S754_finite neg p 0)
                           (S754_finite false (Z.to_pos (10 ^ (- e))) 0)
  | _ => S754_zero neg
  end.

(** [strconv.ParseFloat(s, bitSize)] on the decimal numerals every Go
    release reads alike: the nearest binary32 value for [bitSize = 32], the
    nearest binary64 value otherwise, as a [float64]; an infinity with
    [ErrRange] when the number is too large; 0 with [ErrSyntax] for a
    string that is no such numeral. *)
Definition ParseFloat_decimal (s : string) (bitSize : Z) : float * option NumError :=
  match signed_float s with
  | None => (0%float, Some ErrSyntax)
  | Some (neg, m, e) =>
      let x := if decide (bitSize = 32)
               then round_decimal 24 128 neg m e
               else round_decimal 53 1024 neg m e in
      match x with
      | S754_infinity _ => (SF2Prim x, Some ErrRange)
      | _ => (SF2Prim x, None)
      end
  end.

End strconv.

(** The variables of [LoadDataFromCSV] that its loop updates. *)
Record loader : Type := mkLoader {
  users : list Z;
  items : list Z;
  ratings : list float;
  hasHeader : bool
}.

Section LoadDataFromCSV.

(** [strconv.ParseFloat(s, bitSize)]: the value and the error it returns.
    Its syntax differs between Go releases, so the loader is stated for any
    such function. *)
Variable ParseFloat : string -> Z -> float * option strconv.NumError.

(** One iteration of the scanner loop (lines 134-150) on [line]. *)
Definition scan_line (sep line : string) (st : loader) : option loader :=
  if hasHeader st then
    Some {| users := users st; items := items st; ratings := ratings st;
            hasHeader := false |}
  else
    let fields := strings.Split line sep in
    if decide (len fields < 2) then Some st
    else
      field0 ← index fields 0;
      let user := (strconv.Atoi field0).1 in
      field1 ← index fields 1;
      let item := (strconv.Atoi field1).1 in
      field2 ← index fields 2;
      let rating := (ParseFloat field2 32).1 in
      Some {| users := users st ++ [user]; items := items st ++ [item];
              ratings := ratings st ++ [rating]; hasHeader := hasHeader st |}.

(** The scanner loop over the lines of the file; a panic ends it. *)
Fixpoint scan_lines (sep : string) (lines : list string) (st : loader) : option loader :=
  match lines with
  | [] => Some st
  | line :: rest =>
      match scan_line sep line st with
      | Some st' => scan_lines sep rest st'
      | None => None
      end
  end.

(** LoadDataFromCSV loads Data from a CSV file. The file is given by the
    lines [bufio.Scanner] yields once it has been opened. *)
Definition LoadDataFromCSV (lines : list string) (sep : string) (hasHeader : bool)
    : option DataSet :=
  st ← scan_lines sep lines
        {| users := []; items := []; ratings := []; hasHeader := hasHeader |};
  NewDataSet (Table.NewDataTable (users st) (items st) (ratings st)).

End LoadDataFromCSV.

(** The lines the loop parses: all of them, but for the header line when
    the file has one. *)
Definition data_lines (lines : list string) (hasHeader : bool) : list string :=
  if hasHeader then tail lines else lines.

(** The guard of line 142 lets [line] through: it does not split into
    fewer than two fields. *)
Definition kept (sep line : string) : bool :=
  bool_decide (2 <= len (strings.Split line sep)).

(** The record the loop appends for a line with at least three fields:
    the value each parser returned, whatever error came with it. *)
Definition record_of (ParseFloat : string -> Z -> float * option strconv.NumError)
    (sep line : string) : Z * Z * float :=
  let fields := strings.Split line sep in
  ((strconv.Atoi (nth 0 fields EmptyString)).1,
   (strconv.Atoi (nth 1 fields EmptyString)).1,
   (ParseFloat (nth 2 fields EmptyString) 32).1).

(** ** Further notions about the constructor *)

(** The distinct values of [l], each at the place of its first occurrence. *)
Fixpoint first_seen (l : list Z) : list Z :=
  match l with
  | [] => []
  | x :: l' => x :: filter (fun y => y <> x) (first_seen l')
  end.

(** The records of the test files: record [i] has the user id [i], the item
    id [2 * i] and the rating [3 * i]. *)
Definition explicit_table : Table.t :=
  [(0, 0, 0%float); (1, 2, 3%float); (2, 4, 6%float); (3, 6, 9%float); (4, 8, 12%float)].

(** ** The Netflix loader *)

(** How a call ends: it returns a value, it panics, or [log.Fatal] ends the
    process. *)
Inductive outcome (A : Type) : Type :=
| Returned (a : A)
| Panicked
| Exited.

Arguments Returned {A} a.
Arguments Panicked {A}.
Arguments Exited {A}.

(** [float64(n)] for an [int]: the nearest binary64 value, ties to even. *)
Definition float64 (n : Z) : float := SF2Prim (binary_normalize 53 1024 n 0 false).

(** [line[len(line)-1]]: the last byte of [line]; the index is out of range
    when [line] is empty. *)
Definition last_byte (line : string) : option ascii :=
  match String.length line with
  | O => None
  | S n => String.get n line
  end.

(** [line[0 : len(line)-1]]: [line] without its last byte. *)
Definition without_last_byte (line : string) : string :=
  String.substring 0 (String.length line - 1) line.

Module netflix.

(** The variables of [LoadDataFromNetflix] that its loop updates. *)
Record state : Type := mk {
  users : list Z;
  items : list Z;
  ratings : list float;
  itemId : Z
}.

(** One iteration of the scanner loop (lines 175-189) on [line]. *)
Definition scan_line (line : string) (st : state) : outcome state :=
  match last_byte line with
  | None => Panicked
  | Some c =>
      if Ascii.eqb c ":" then
        match strconv.Atoi (without_last_byte line) with
        | (id, None) =>
            Returned {| users := users st; items := items st; ratings := ratings st;
                        itemId := id |}
        | (_, Some _) => Exited
        end
      else
        let fields := strings.Split line "," in
        match index fields 0 with
        | None => Panicked
        | Some field0 =>
            let userId := (strconv.Atoi field0).1 in
            match index fields 1 with
            | None => Panicked
            | Some field1 =>
                let rating := (strconv.Atoi field1).1 in
                Returned {| users := users st ++ [userId];
                            items := items st ++ [itemId st];
                            ratings := ratings st ++ [float64 rating];
                            itemId := itemId st |}
            end
        end
  end.

(** The scanner loop over the lines of the file; a panic or an exit ends
    it. *)
Fixpoint scan_lines (lines : list string) (st : state) : outcome state :=
  match lines with
  | [] => Returned st
  | line :: rest =>
      match scan_line line st with
      | Returned st' => scan_lines rest st'
      | Panicked => Panicked
      | Exited => Exited
      end
  end.

End netflix.

(** LoadDataFromNetflix loads Data from the Netflix dataset. The file is
    given by the lines [bufio.Scanner] yields once it has been opened; the
    two other parameters are not used. *)
Definition LoadDataFromNetflix (lines : list string) (_ : string) (_ : bool)
    : outcome DataSet :=
  match netflix.scan_lines lines
          {| netflix.users := []; netflix.items := []; netflix.ratings := [];
             netflix.itemId := -1 |} with
  | Returned st =>
      match NewDataSet (Table.NewDataTable (netflix.users st) (netflix.items st)
                                           (netflix.ratings st)) with
      | Some dataSet => Returned dataSet
      | None => Panicked
      end
  | Panicked => Panicked
  | Exited => Exited
  end.

(** A line of the form [<itemId>:]: its last byte is a colon. *)
Definition is_header (line : string) : bool :=
  match last_byte line with
  | Some c => Ascii.eqb c ":"
  | None => false
  end.

(** A line the loop reads as [<userId>, <rating>, <date>]: it is not empty
    and its last byte is no colon. *)
Definition is_rating (line : string) : bool :=
  match last_byte line with
  | Some c => negb (Ascii.eqb c ":")
  | None => false
  end.

(** A line the loop gets through: a header whose item id [Atoi] reads
    without an error, or a rating line with at least two fields. *)
Definition line_ok (line : string) : bool :=
  match last_byte line with
  | None => false
  | Some c =>
      if Ascii.eqb c ":"
      then bool_decide ((strconv.Atoi (without_last_byte line)).2 = None)
      else bool_decide (2 <= len (strings.Split line ","))
  end.

(** The item id in force after the lines [pre]: that of the last header
    line, or -1 when there is none. *)
Definition current_item (pre : list string) : Z :=
  match last (filter is_header pre) with
  | Some header => (strconv.Atoi (without_last_byte header)).1
  | None => -1
  end.

(** The record the loop appends for the rating line [line] that comes after
    the lines [pre]. *)
Definition netflix_record (pre : list string) (line : string) : Z * Z * float :=
  let fields := strings.Split line "," in
  ((strconv.Atoi (nth 0 fields EmptyString)).1,
   current_item pre,
   float64 (strconv.Atoi (nth 1 fields EmptyString)).1).

(** The item id in force after the lines [pre] when it was [id] before
    them. *)
Definition item_after (id : Z) (pre : list string) : Z :=
  match last (filter is_header pre) with
  | Some header => (strconv.Atoi (without_last_byte header)).1
  | None => id
  end.

(** * Slices *)

Lemma index_Some {A} (s : list A) i x :
  index s i = Some x <-> 0 <= i /\ s !! Z.to_nat i = Some x.
Proof.
  unfold index. destruct (decide (0 <= i)); intuition congruence.
Qed.

Lemma index_lt {A} (s : list A) i x : index s i = Some x -> 0 <= i < len s.
Proof.
  intros [Hi Hx]%index_Some. apply lookup_lt_Some in Hx. unfold len. lia.
Qed.

Lemma index_is_Some {A} (s : list A) i : 0 <= i < len s -> is_Some (index s i).
Proof.
  intros [Hi Hlt]. unfold index, len in *.
  rewrite decide_True by done. apply lookup_lt_is_Some. lia.
Qed.

Lemma index_of_nat {A} (s : list A) (n : nat) : index s (Z.of_nat n) = s !! n.
Proof.
  unfold index. rewrite decide_True by lia. by rewrite Nat2Z.id.
Qed.

Lemma len_nonneg {A} (s : list A) : 0 <= len s.
Proof. unfold len. lia. Qed.

(** * IdentifierSet *)

Module IdSetFacts.
Import SparseIdSet IdSetWf.

Lemma wf_New : wf NewSparseIdSet.
Proof.
  split; cbn; intros ? ? H.
  - by rewrite lookup_empty in H.
  - apply index_Some in H as [_ H]. by rewrite lookup_nil in H.
Qed.

Lemma Add_known set s d : DenseIds set !! s = Some d -> Add set s = set.
Proof. intros H. unfold Add. by rewrite H. Qed.

Lemma Add_fresh set s :
  DenseIds set !! s = None ->
  Add set s = {| DenseIds := <[s := Len set]> (DenseIds set);
                 SparseIds := SparseIds set ++ [s] |}.
Proof. intros H. unfold Add. by rewrite H. Qed.

Lemma wf_Add set s : wf set -> wf (Add set s).
Proof.
  intros [Hd Hs]. destruct (DenseIds set !! s) as [d|] eqn:E.
  { by rewrite (Add_known _ _ _ E). }
  rewrite (Add_fresh _ _ E). split; cbn; intros a b H.
  - destruct (decide (s = a)) as [->|Hne].
    + rewrite lookup_insert_eq in H. injection H as <-.
      unfold Len, len. rewrite index_of_nat. by rewrite list_lookup_middle.
    + rewrite lookup_insert_ne in H by done. apply Hd in H.
      apply index_Some in H as [H0 H]. apply index_Some. split; [done|].
      by apply lookup_app_l_Some.
  - apply index_Some in H as [H0 H].
    destruct (decide (Z.to_nat a < length (SparseIds set))%nat) as [Hlt|Hge].
    + rewrite lookup_app_l in H by done.
      assert (DenseIds set !! b = Some a) as Hb by (apply Hs, index_Some; done).
      rewrite lookup_insert_ne; [done|]. intros <-. congruence.
    + rewrite lookup_app_r in H by lia.
      destruct (Z.to_nat a - length (SparseIds set))%nat as [|k] eqn:Ek; [|by destruct k].
      cbn in H. injection H as <-. rewrite lookup_insert_eq. f_equal.
      unfold Len, len. lia.
Qed.

Lemma Add_registers set s : is_Some (DenseIds (Add set s) !! s).
Proof.
  destruct (DenseIds set !! s) as [d|] eqn:E.
  - rewrite (Add_known _ _ _ E). by rewrite E.
  - rewrite (Add_fresh _ _ E). cbn. rewrite lookup_insert_eq. eauto.
Qed.

Lemma Add_keeps set s s' d :
  DenseIds set !! s' = Some d -> DenseIds (Add set s) !! s' = Some d.
Proof.
  intros H. destruct (DenseIds set !! s) as [d0|] eqn:E.
  - by rewrite (Add_known _ _ _ E).
  - rewrite (Add_fresh _ _ E). cbn. rewrite lookup_insert_ne; [done|congruence].
Qed.

Lemma ToDenseId_Some set s d : DenseIds set !! s = Some d -> ToDenseId set s = d.
Proof. intros H. unfold ToDenseId. by rewrite H. Qed.

Lemma ToDenseId_None set s : DenseIds set !! s = None -> ToDenseId set s = 0.
Proof. intros H. unfold ToDenseId. by rewrite H. Qed.

Lemma ToDenseId_range set s :
  wf set -> is_Some (DenseIds set !! s) -> 0 <= ToDenseId set s < Len set.
Proof.
  intros Hwf [d Hd]. rewrite (ToDenseId_Some _ _ _ Hd).
  apply (wf_dense _ Hwf) in Hd. by apply index_lt in Hd.
Qed.

Lemma ToSparseId_ToDenseId set s :
  wf set -> is_Some (DenseIds set !! s) -> ToSparseId set (ToDenseId set s) = Some s.
Proof.
  intros Hwf [d Hd]. rewrite (ToDenseId_Some _ _ _ Hd). by apply (wf_dense _ Hwf).
Qed.

Lemma ToDenseId_ToSparseId set d s :
  wf set -> ToSparseId set d = Some s -> ToDenseId set s = d.
Proof.
  intros Hwf H. apply ToDenseId_Some. by apply (wf_sparse _ Hwf).
Qed.

End IdSetFacts.

(** * Construction *)

Section Construction.
Import IdSetWf IdSetFacts.

Lemma ForEach_snoc {S} (table : Table.t) rec (f : Z -> Z -> float -> S -> S) s :
  Table.ForEach (table ++ [rec]) f s
  = f (user_of rec) (item_of rec) (rating_of rec) (Table.ForEach table f s).
Proof.
  unfold Table.ForEach. rewrite fold_left_app. cbn. by destruct rec as [[u i] r].
Qed.

Lemma ToDenseId_Add_registered set s s' :
  is_Some (SparseIdSet.DenseIds set !! s') ->
  SparseIdSet.ToDenseId (SparseIdSet.Add set s) s' = SparseIdSet.ToDenseId set s'.
Proof.
  intros [d Hd]. rewrite (ToDenseId_Some _ _ _ Hd).
  apply ToDenseId_Some. by apply Add_keeps.
Qed.

Lemma scanned_pass1 p rec set :
  scanned p set ->
  scanned (p ++ [rec]) (pass1 (user_of rec) (item_of rec) (rating_of rec) set).
Proof.
  intros [Huwf Hiwf Hureg Hireg Huids Hiids].
  split; cbn.
  - by apply wf_Add.
  - by apply wf_Add.
  - intros rec' [Hin | ->%list_elem_of_singleton]%elem_of_app.
    + destruct (Hureg _ Hin) as [d Hd]. exists d. by apply Add_keeps.
    + apply Add_registers.
  - intros rec' [Hin | ->%list_elem_of_singleton]%elem_of_app.
    + destruct (Hireg _ Hin) as [d Hd]. exists d. by apply Add_keeps.
    + apply Add_registers.
  - rewrite map_app, Huids. cbn. f_equal.
    apply map_ext_in. intros rec' Hin%list_elem_of_In.
    unfold udense. cbn. symmetry. apply ToDenseId_Add_registered. auto.
  - rewrite map_app, Hiids. cbn. f_equal.
    apply map_ext_in. intros rec' Hin%list_elem_of_In.
    unfold idense. cbn. symmetry. apply ToDenseId_Add_registered. auto.
Qed.

Lemma scanned_ForEach p set0 :
  scanned [] set0 -> scanned p (Table.ForEach p pass1 set0).
Proof.
  intros H0. induction p as [|rec p IH] using rev_ind; [done|].
  rewrite ForEach_snoc. by apply scanned_pass1.
Qed.

Lemma pass1_keeps_table p set0 :
  Table_ (Table.ForEach p pass1 set0) = Table_ set0
  /\ GlobalMean (Table.ForEach p pass1 set0) = GlobalMean set0.
Proof.
  induction p as [|rec p IH] using rev_ind; [done|].
  rewrite ForEach_snoc. cbn. exact IH.
Qed.

Lemma len_NewDenseSparseMatrix n : 0 <= n -> len (NewDenseSparseMatrix n) = n.
Proof.
  intros Hn. unfold NewDenseSparseMatrix, len. rewrite length_replicate. lia.
Qed.

Lemma index_NewDenseSparseMatrix n d :
  0 <= d < n -> index (NewDenseSparseMatrix n) d = Some SparseVector.NewSparseVector.
Proof.
  intros Hd. apply index_Some. split; [lia|].
  unfold NewDenseSparseMatrix. apply lookup_replicate_2. lia.
Qed.

Lemma matrix_values_New n : matrix_values (NewDenseSparseMatrix n) = [].
Proof.
  unfold matrix_values, NewDenseSparseMatrix.
  induction (Z.to_nat n) as [|k IH]; [done|]. cbn. exact IH.
Qed.

Lemma built_allocated table : built table [] (NewDataSet_allocated table).
Proof.
  unfold NewDataSet_allocated.
  set (init := {| Table_ := table; GlobalMean := Table.Mean table;
                  DenseUserIds := []; DenseItemIds := [];
                  DenseUserRatings := []; DenseItemRatings := [];
                  UserIdSet := SparseIdSet.NewSparseIdSet;
                  ItemIdSet := SparseIdSet.NewSparseIdSet |}).
  assert (scanned [] init) as H0.
  { split; cbn; try done; try apply wf_New; intros rec Hin; by apply elem_of_nil in Hin. }
  destruct (scanned_ForEach table init H0) as [Huwf Hiwf Hureg Hireg Huids Hiids].
  destruct (pass1_keeps_table table init) as [Ht Hm].
  split; try (cbn; done).
  - apply len_NewDenseSparseMatrix, len_nonneg.
  - apply len_NewDenseSparseMatrix, len_nonneg.
  - intros d Hd. by apply index_NewDenseSparseMatrix.
  - intros d Hd. by apply index_NewDenseSparseMatrix.
  - cbn [DenseUserRatings]. rewrite matrix_values_New. constructor.
  - cbn [DenseItemRatings]. rewrite matrix_values_New. constructor.
Qed.

Lemma index_store_eq {A} (s s' : list A) i x :
  store s i x = Some s' -> index s' i = Some x.
Proof.
  unfold store. destruct (index s i) as [y|] eqn:E; [|done].
  intros [= <-]. apply index_Some in E as [Hi Hy]. apply index_Some. split; [done|].
  apply list_lookup_insert_eq. by apply lookup_lt_Some in Hy.
Qed.

Lemma index_store_ne {A} (s s' : list A) i j x :
  store s i x = Some s' -> i <> j -> index s' j = index s j.
Proof.
  unfold store. destruct (index s i) as [y|] eqn:E; [|done].
  intros [= <-] Hne. apply index_Some in E as [Hi Hy].
  unfold index. destruct (decide (0 <= j)); [|done].
  apply list_lookup_insert_ne. lia.
Qed.

Lemma len_store {A} (s s' : list A) i x : store s i x = Some s' -> len s' = len s.
Proof.
  unfold store. destruct (index s i); [|done]. intros [= <-].
  unfold len. by rewrite length_insert.
Qed.

Lemma row_snoc_eq key other p rec :
  row key other (p ++ [rec]) (key rec)
  = row key other p (key rec) ++ [(other rec, rating_of rec)].
Proof.
  unfold row. rewrite flat_map_app. cbn. by rewrite decide_True, app_nil_r.
Qed.

Lemma row_snoc_ne key other p rec d :
  key rec <> d -> row key other (p ++ [rec]) d = row key other p d.
Proof.
  intros Hne. unfold row. rewrite flat_map_app. cbn.
  by rewrite decide_False, !app_nil_r.
Qed.

Lemma Add_vector_of l idx value :
  SparseVector.Add (vector_of l) idx value = vector_of (l ++ [(idx, value)]).
Proof. unfold SparseVector.Add, vector_of. cbn. by rewrite !fmap_app. Qed.

(** One step of the second pass on one of the two arrays. *)
Lemma matrix_Add_rows key other p rec (mat : list SparseVector.t) n :
  len mat = n ->
  (forall d, 0 <= d < n -> index mat d = Some (vector_of (row key other p d))) ->
  0 <= key rec < n ->
  exists mat',
    matrix_Add mat (key rec) (other rec) (rating_of rec) = Some mat'
    /\ len mat' = n
    /\ forall d, 0 <= d < n ->
         index mat' d = Some (vector_of (row key other (p ++ [rec]) d)).
Proof.
  intros Hlen Hrows Hk. unfold matrix_Add. rewrite (Hrows _ Hk).
  destruct (store mat (key rec) _) as [mat'|] eqn:E.
  2:{ unfold store in E. by rewrite (Hrows _ Hk) in E. }
  exists mat'. split; [done|]. split.
  { by rewrite (len_store _ _ _ _ E). }
  intros d Hd. destruct (decide (key rec = d)) as [<-|Hne].
  - rewrite (index_store_eq _ _ _ _ E). by rewrite Add_vector_of, row_snoc_eq.
  - rewrite (index_store_ne _ _ _ _ _ E Hne). rewrite row_snoc_ne by done. auto.
Qed.

Lemma matrix_values_Add mat row idx value mat' :
  matrix_Add mat row idx value = Some mat' ->
  Permutation (matrix_values mat') (matrix_values mat ++ [value]).
Proof.
  unfold matrix_Add, store. destruct (index mat row) as [vec|] eqn:E; [|done].
  intros [= <-]. apply index_Some in E as [_ E].
  pose proof (lookup_lt_Some _ _ _ E) as Hlt.
  rewrite insert_take_drop by done.
  rewrite <- (take_drop_middle _ _ _ E) at 3.
  unfold matrix_values. rewrite !fmap_app, !fmap_cons, !concat_app, !concat_cons. cbn.
  rewrite <- !app_assoc. apply Permutation_app_head, Permutation_app_head.
  apply Permutation_app_comm.
Qed.

Lemma ratings_snoc p rec : Table.ratings (p ++ [rec]) = Table.ratings p ++ [rating_of rec].
Proof. unfold Table.ratings. by rewrite map_app. Qed.

Lemma built_pass2 table p rec set :
  built table p set -> rec ∈ table ->
  exists set',
    pass2 (user_of rec) (item_of rec) (rating_of rec) (Some set) = Some set'
    /\ built table (p ++ [rec]) set'.
Proof.
  intros [Ht Hm Hus His Huwf Hiwf Hureg Hireg Huids Hiids Hulen Hilen Hurows Hirows
          Huv Hiv] Hin.
  pose proof (ToDenseId_range _ _ Huwf (Hureg _ Hin)) as Hu.
  pose proof (ToDenseId_range _ _ Hiwf (Hireg _ Hin)) as Hi.
  destruct (matrix_Add_rows (udense set) (idense set) p rec _ _ Hulen Hurows Hu)
    as (urs & Eu & Hulen' & Hurows').
  destruct (matrix_Add_rows (idense set) (udense set) p rec _ _ Hilen Hirows Hi)
    as (irs & Ei & Hilen' & Hirows').
  unfold udense, idense in Eu, Ei.
  eexists. split.
  { cbn. rewrite Eu. cbn. rewrite Ei. cbn. reflexivity. }
  split; cbn; try done.
  - rewrite ratings_snoc, (matrix_values_Add _ _ _ _ _ Eu).
    by apply Permutation_app_tail.
  - rewrite ratings_snoc, (matrix_values_Add _ _ _ _ _ Ei).
    by apply Permutation_app_tail.
Qed.

Lemma built_ForEach table p :
  (forall rec, rec ∈ p -> rec ∈ table) ->
  exists set,
    Table.ForEach p pass2 (Some (NewDataSet_allocated table)) = Some set
    /\ built table p set.
Proof.
  induction p as [|rec p IH] using rev_ind; intros Hsub.
  - exists (NewDataSet_allocated table). split; [done|]. apply built_allocated.
  - destruct IH as (set & E & Hb).
    { intros rec' Hin. apply Hsub, elem_of_app. by left. }
    rewrite ForEach_snoc, E. apply (built_pass2 table p rec set Hb).
    apply Hsub, elem_of_app. right. by apply list_elem_of_singleton.
Qed.

(** [NewDataSet] never panics, and its result is described by [built]. *)
Lemma NewDataSet_built table :
  exists set, NewDataSet table = Some set /\ built table table set.
Proof. apply built_ForEach. auto. Qed.

End Construction.

(** * Claims about the constructor *)

Lemma sum_exact_Permutation l1 l2 : Permutation l1 l2 -> sum_exact l1 = sum_exact l2.
Proof.
  unfold sum_exact.
  induction 1 as [|x l l' _ IH|x y l|l l' l'' _ IH1 _ IH2]; cbn [fold_right].
  - reflexivity.
  - by rewrite IH.
  - rewrite !Qcplus_assoc. f_equal. apply Qcplus_comm.
  - by rewrite IH1.
Qed.

Lemma pairs_vector_of l : SparseVector.pairs (vector_of l) = l.
Proof. unfold SparseVector.pairs, vector_of. cbn. apply zip_fst_snd. Qed.

Lemma elem_of_row key other p rec :
  rec ∈ p -> (other rec, rating_of rec) ∈ row key other p (key rec).
Proof.
  intros Hin. apply list_elem_of_In, in_flat_map. exists rec.
  split; [by apply list_elem_of_In|]. rewrite decide_True by done. by left.
Qed.

Lemma Get_elem_of table i rec : Table.Get table i = Some rec -> rec ∈ table.
Proof.
  intros [_ H]%index_Some. by apply list_elem_of_lookup_2 in H.
Qed.

Lemma index_map {A B} (f : A -> B) (s : list A) i x :
  index s i = Some x -> index (map f s) i = Some (f x).
Proof.
  intros [Hi H]%index_Some. apply index_Some. split; [done|].
  change (map f s) with (f <$> s). by rewrite list_lookup_fmap, H.
Qed.

(** C1. After [NewDataSet] has built a DataSet from a raw table, for every
    record position [i] the vector [DenseUserRatings[DenseUserIds[i]]]
    contains the pair [(DenseItemIds[i], rating_i)], and the vector
    [DenseItemRatings[DenseItemIds[i]]] contains the pair
    [(DenseUserIds[i], rating_i)]. *)
Theorem NewDataSet_dual_index (table : Table.t) :
  exists set,
    NewDataSet table = Some set
    /\ forall i rec,
         Table.Get table i = Some rec ->
         exists du di uvec ivec,
           index (DenseUserIds set) i = Some du
           /\ index (DenseItemIds set) i = Some di
           /\ index (DenseUserRatings set) du = Some uvec
           /\ (di, rating_of rec) ∈ SparseVector.pairs uvec
           /\ index (DenseItemRatings set) di = Some ivec
           /\ (du, rating_of rec) ∈ SparseVector.pairs ivec.
Proof.
  destruct (NewDataSet_built table) as (set & E & Hb).
  exists set. split; [exact E|]. intros i rec Hget.
  pose proof (Get_elem_of _ _ _ Hget) as Hin.
  pose proof (IdSetFacts.ToDenseId_range _ _ (b_uwf _ _ _ Hb) (b_ureg _ _ _ Hb _ Hin)) as Hu.
  pose proof (IdSetFacts.ToDenseId_range _ _ (b_iwf _ _ _ Hb) (b_ireg _ _ _ Hb _ Hin)) as Hi.
  exists (udense set rec), (idense set rec).
  eexists. eexists.
  split. { rewrite (b_uids _ _ _ Hb). by apply index_map. }
  split. { rewrite (b_iids _ _ _ Hb). by apply index_map. }
  split. { apply (b_urows _ _ _ Hb). exact Hu. }
  split. { rewrite pairs_vector_of. by apply elem_of_row. }
  split. { apply (b_irows _ _ _ Hb). exact Hi. }
  rewrite pairs_vector_of. by apply elem_of_row.
Qed.

(** C1 at the last record of [sample_table], the second rating of the
    pair (5, 7). *)
Lemma NewDataSet_dual_index_witness :
  exists set,
    NewDataSet sample_table = Some set
    /\ exists du di uvec ivec,
         index (DenseUserIds set) 3 = Some du
         /\ index (DenseItemIds set) 3 = Some di
         /\ index (DenseUserRatings set) du = Some uvec
         /\ (di, 2%float) ∈ SparseVector.pairs uvec
         /\ index (DenseItemRatings set) di = Some ivec
         /\ (du, 2%float) ∈ SparseVector.pairs ivec.
Proof.
  destruct (NewDataSet_dual_index sample_table) as (set & E & H).
  exists set. split; [exact E|].
  apply (H 3 (5, 7, 2%float)). reflexivity.
Defined.

(** C2. For every raw table the rating values held by [DenseUserRatings]
    and those held by [DenseItemRatings] are, up to order, the ratings of
    the raw table, so the three sums are equal; for the empty table they
    are 0. *)
Theorem NewDataSet_conservation :
  (forall table : Table.t,
     exists set,
       NewDataSet table = Some set
       /\ Permutation (matrix_values (DenseUserRatings set)) (Table.ratings table)
       /\ Permutation (matrix_values (DenseItemRatings set)) (Table.ratings table)
       /\ sum_exact (matrix_values (DenseUserRatings set))
          = sum_exact (matrix_values (DenseItemRatings set))
       /\ sum_exact (matrix_values (DenseItemRatings set))
          = sum_exact (Table.ratings table))
  /\ exists set,
       NewDataSet [] = Some set
       /\ sum_exact (matrix_values (DenseUserRatings set)) = Q2Qc 0
       /\ sum_exact (matrix_values (DenseItemRatings set)) = Q2Qc 0
       /\ sum_exact (Table.ratings []) = Q2Qc 0.
Proof.
  split.
  - intros table. destruct (NewDataSet_built table) as (set & E & Hb).
    exists set. split; [exact E|].
    pose proof (b_uvals _ _ _ Hb) as Hu. pose proof (b_ivals _ _ _ Hb) as Hi.
    repeat split; try done.
    + rewrite (sum_exact_Permutation _ _ Hu). symmetry. by apply sum_exact_Permutation.
    + by apply sum_exact_Permutation.
  - eexists. split; [reflexivity|]. by cbn.
Qed.

(** C5. After construction the two dense-id arrays are as long as the raw
    table, [DenseUserRatings] has [UserCount()] entries and
    [DenseItemRatings] has [ItemCount()] entries; the two arrays are
    allocated once, at exactly those sizes, and the second pass does not
    resize them. *)
Theorem NewDataSet_sizes (table : Table.t) :
  exists set,
    NewDataSet table = Some set
    /\ len (DenseUserIds set) = Table.Len table
    /\ len (DenseItemIds set) = Table.Len table
    /\ len (DenseUserRatings set) = UserCount set
    /\ len (DenseItemRatings set) = ItemCount set
    /\ DenseUserRatings (NewDataSet_allocated table) = NewDenseSparseMatrix (UserCount set)
    /\ DenseItemRatings (NewDataSet_allocated table) = NewDenseSparseMatrix (ItemCount set)
    /\ len (DenseUserRatings (NewDataSet_allocated table)) = UserCount set
    /\ len (DenseItemRatings (NewDataSet_allocated table)) = ItemCount set.
Proof.
  destruct (NewDataSet_built table) as (set & E & Hb).
  exists set. split; [exact E|].
  assert (UserCount (NewDataSet_allocated table) = UserCount set) as Hu.
  { unfold UserCount. by rewrite (b_uset _ _ _ Hb). }
  assert (ItemCount (NewDataSet_allocated table) = ItemCount set) as Hi.
  { unfold ItemCount. by rewrite (b_iset _ _ _ Hb). }
  pose proof (built_allocated table) as Ha.
  split. { rewrite (b_uids _ _ _ Hb). unfold Table.Len, len. by rewrite length_map. }
  split. { rewrite (b_iids _ _ _ Hb). unfold Table.Len, len. by rewrite length_map. }
  split. { exact (b_ulen _ _ _ Hb). }
  split. { exact (b_ilen _ _ _ Hb). }
  split. { rewrite <- Hu. reflexivity. }
  split. { rewrite <- Hi. reflexivity. }
  split. { rewrite <- Hu. exact (b_ulen _ _ _ Ha). }
  rewrite <- Hi. exact (b_ilen _ _ _ Ha).
Qed.

(** [GetDense] on any DataSet whose three arrays have an entry at [i]. *)
Lemma GetDense_eq set i userId itemId rating du di :
  Table.Get (Table_ set) i = Some (userId, itemId, rating) ->
  index (DenseUserIds set) i = Some du ->
  index (DenseItemIds set) i = Some di ->
  GetDense set i = Some (du, di, rating).
Proof. intros Hg Hu Hi. unfold GetDense. rewrite Hg. cbn. rewrite Hu. cbn. by rewrite Hi. Qed.

(** C6. For every valid position [i] of a DataSet, [GetDense(i)] returns
    [(DenseUserIds[i], DenseItemIds[i], rating_i)], where [rating_i] is the
    rating of the record [Get(i)] returns. *)
Theorem GetDense_correct (table : Table.t) :
  exists set,
    NewDataSet table = Some set
    /\ forall i, 0 <= i < Table.Len (Table_ set) ->
         exists userId itemId rating du di,
           Table.Get (Table_ set) i = Some (userId, itemId, rating)
           /\ index (DenseUserIds set) i = Some du
           /\ index (DenseItemIds set) i = Some di
           /\ GetDense set i = Some (du, di, rating).
Proof.
  destruct (NewDataSet_built table) as (set & E & Hb).
  exists set. split; [exact E|]. intros i Hi.
  destruct (index_is_Some (Table_ set) i Hi) as [[[userId itemId] rating] Hget].
  assert (index (Table_ set) i = Some (userId, itemId, rating)) as Hget' by exact Hget.
  rewrite (b_table _ _ _ Hb) in Hget'.
  exists userId, itemId, rating, (udense set (userId, itemId, rating)),
    (idense set (userId, itemId, rating)).
  assert (index (DenseUserIds set) i = Some (udense set (userId, itemId, rating))) as Hu.
  { rewrite (b_uids _ _ _ Hb). by apply index_map. }
  assert (index (DenseItemIds set) i = Some (idense set (userId, itemId, rating))) as Hd.
  { rewrite (b_iids _ _ _ Hb). by apply index_map. }
  split; [exact Hget|]. split; [exact Hu|]. split; [exact Hd|].
  exact (GetDense_eq _ _ _ _ _ _ _ Hget Hu Hd).
Qed.

(** C6 at position 3 of [sample_table]. *)
Lemma GetDense_correct_witness :
  exists set,
    NewDataSet sample_table = Some set
    /\ GetDense set 3 = Some (0, 0, 2%float).
Proof.
  destruct (GetDense_correct sample_table) as (set & E & H).
  exists set. split; [exact E|].
  destruct (H 3) as (userId & itemId & rating & du & di & Hget & Hu & Hi & Hd).
  - vm_compute in E; injection E as <-. by vm_compute.
  - vm_compute in E; injection E as <-. rewrite Hd.
    vm_compute in Hget, Hu, Hi. congruence.
Defined.

(** * The per-user lookup *)

Lemma ForEach_from_materialize items values indices i set :
  (length indices + i <= length values)%nat ->
  SparseVector.ForEach_from values
    (fun _ idx value set =>
       itemId ← SparseIdSet.ToSparseId items idx; Some (<[itemId := value]> set))
    i indices set
  = materialize items (zip indices (drop i values)) set.
Proof.
  revert i set. induction indices as [|idx rest IH]; intros i set Hlen; [done|].
  cbn in Hlen. destruct (lookup_lt_is_Some_2 values i) as [value Hv]; [lia|].
  rewrite (drop_S _ _ _ Hv). cbn. rewrite Hv.
  destruct (SparseIdSet.ToSparseId items idx) as [itemId|]; [|done]. cbn.
  apply IH. lia.
Qed.

Lemma GetUserRatingsSet_materialize dataSet userId vec :
  index (DenseUserRatings dataSet)
        (SparseIdSet.ToDenseId (UserIdSet dataSet) userId) = Some vec ->
  length (SparseVector.Indices vec) = length (SparseVector.Values vec) ->
  GetUserRatingsSet dataSet userId
  = materialize (ItemIdSet dataSet) (SparseVector.pairs vec) ∅.
Proof.
  intros Hvec Hlen. unfold GetUserRatingsSet. rewrite Hvec. cbn.
  unfold SparseVector.ForEach. rewrite ForEach_from_materialize by lia.
  by rewrite drop_0.
Qed.

Lemma last_rating_cons items idx value rest itemId :
  last_rating items ((idx, value) :: rest) itemId
  = match last_rating items rest itemId with
    | Some v => Some v
    | None => if decide (SparseIdSet.ToSparseId items idx = Some itemId)
              then Some value else None
    end.
Proof.
  unfold last_rating. cbn.
  destruct (decide (SparseIdSet.ToSparseId items idx = Some itemId)).
  - by rewrite last_cons.
  - by destruct (last _).
Qed.

(** The map [materialize] builds: the last matching pair wins, and an item
    id no pair converts to keeps what the initial map held. *)
Lemma materialize_lookup items pairs set set' itemId :
  materialize items pairs set = Some set' ->
  set' !! itemId = match last_rating items pairs itemId with
                   | Some v => Some v
                   | None => set !! itemId
                   end.
Proof.
  revert set. induction pairs as [|[idx value] rest IH]; intros set H.
  - cbn in H. by injection H as <-.
  - cbn in H. rewrite last_rating_cons.
    destruct (SparseIdSet.ToSparseId items idx) as [s|] eqn:Es; [|done].
    rewrite (IH _ H). destruct (last_rating items rest itemId); [done|].
    destruct (decide (Some s = Some itemId)) as [[= ->]|Hne].
    + by rewrite lookup_insert_eq.
    + rewrite lookup_insert_ne; [done|congruence].
Qed.

Lemma materialize_is_Some items pairs set :
  (forall p, p ∈ pairs -> is_Some (SparseIdSet.ToSparseId items p.1)) ->
  is_Some (materialize items pairs set).
Proof.
  revert set. induction pairs as [|[idx value] rest IH]; intros set H; [by eexists|].
  cbn. destruct (H (idx, value)) as [s Hs]; [by left|]. cbn in Hs. rewrite Hs.
  apply IH. intros p Hp. apply H. by right.
Qed.

(** The last pair converting to [itemId] is the one [last_rating] reads. *)
Lemma last_rating_at items (pairs : list (Z * float)) j idx value itemId :
  pairs !! j = Some (idx, value) ->
  SparseIdSet.ToSparseId items idx = Some itemId ->
  (forall k idx' value', (j < k)%nat -> pairs !! k = Some (idx', value') ->
     SparseIdSet.ToSparseId items idx' <> Some itemId) ->
  last_rating items pairs itemId = Some value.
Proof.
  revert j. induction pairs as [|[idx0 value0] rest IH]; intros j Hj Hs Hlater; [done|].
  rewrite last_rating_cons. destruct j as [|j]; cbn in Hj.
  - injection Hj as -> ->.
    assert (last_rating items rest itemId = None) as ->.
    { clear IH. unfold last_rating. 
      assert (forall k p, rest !! k = Some p ->
                SparseIdSet.ToSparseId items p.1 <> Some itemId) as Hno.
      { intros k [idx' value'] Hk. apply (Hlater (S k) idx' value'); [lia|done]. }
      clear Hlater. induction rest as [|p rest IHr]; [done|]. cbn.
      rewrite decide_False by (apply (Hno 0%nat); done).
      apply IHr. intros k p' Hk. apply (Hno (S k)). done. }
    by rewrite decide_True.
  - rewrite (IH j Hj Hs); [done|].
    intros k idx' value' Hlt Hk. apply (Hlater (S k) idx' value'); [lia|done].
Qed.

Lemma elem_of_row_inv key other p d (pr : Z * float) :
  pr ∈ row key other p d ->
  exists rec, rec ∈ p /\ key rec = d /\ pr = (other rec, rating_of rec).
Proof.
  intros (rec & Hin & Hpr)%list_elem_of_In%in_flat_map.
  exists rec. split; [by apply list_elem_of_In|].
  destruct (decide (key rec = d)) as [Hk|Hk]; [|done].
  destruct Hpr as [<-|[]]. done.
Qed.

(** [GetUserRatingsSet] on any DataSet, built by [NewDataSet] or written
    down field by field, in which the user is registered and the user's
    vector is well formed. *)
Lemma GetUserRatingsSet_spec dataSet userId vec :
  index (DenseUserRatings dataSet)
        (SparseIdSet.ToDenseId (UserIdSet dataSet) userId) = Some vec ->
  length (SparseVector.Indices vec) = length (SparseVector.Values vec) ->
  (forall p, p ∈ SparseVector.pairs vec ->
     is_Some (SparseIdSet.ToSparseId (ItemIdSet dataSet) p.1)) ->
  exists set,
    GetUserRatingsSet dataSet userId = Some set
    /\ materialize (ItemIdSet dataSet) (SparseVector.pairs vec) ∅ = Some set
    /\ forall itemId,
         set !! itemId = last_rating (ItemIdSet dataSet) (SparseVector.pairs vec) itemId.
Proof.
  intros Hvec Hlen Hconv.
  destruct (materialize_is_Some _ _ ∅ Hconv) as [set Hset].
  exists set. split; [|split; [exact Hset|]].
  - by rewrite (GetUserRatingsSet_materialize _ _ _ Hvec Hlen).
  - intros itemId. rewrite (materialize_lookup _ _ _ _ itemId Hset).
    destruct (last_rating _ _ _); [done|]. apply lookup_empty.
Qed.

(** C3. For every registered sparse user id, [GetUserRatingsSet] converts
    it to a dense id, iterates that user's SparseVector in order, converts
    each dense item index back to a sparse item id and returns the map from
    sparse item id to rating; when the same item index occurs more than once
    in the vector, the value that appears last is the one in the map. *)
Theorem GetUserRatingsSet_last_wins (table : Table.t) :
  exists dataSet,
    NewDataSet table = Some dataSet
    /\ forall userId,
         is_Some (SparseIdSet.DenseIds (UserIdSet dataSet) !! userId) ->
         exists vec set,
           index (DenseUserRatings dataSet)
                 (SparseIdSet.ToDenseId (UserIdSet dataSet) userId) = Some vec
           /\ GetUserRatingsSet dataSet userId = Some set
           /\ materialize (ItemIdSet dataSet) (SparseVector.pairs vec) ∅ = Some set
           /\ (forall itemId,
                 set !! itemId
                 = last_rating (ItemIdSet dataSet) (SparseVector.pairs vec) itemId)
           /\ (forall j idx value,
                 SparseVector.pairs vec !! j = Some (idx, value) ->
                 (forall k value', (j < k)%nat ->
                    SparseVector.pairs vec !! k <> Some (idx, value')) ->
                 exists itemId,
                   SparseIdSet.ToSparseId (ItemIdSet dataSet) idx = Some itemId
                   /\ set !! itemId = Some value).
Proof.
  destruct (NewDataSet_built table) as (dataSet & E & Hb).
  exists dataSet. split; [exact E|]. intros userId Hreg.
  pose proof (IdSetFacts.ToDenseId_range _ _ (b_uwf _ _ _ Hb) Hreg) as Hd.
  pose proof (b_urows _ _ _ Hb _ Hd) as Hvec.
  set (vec := vector_of _) in Hvec.
  assert (forall p, p ∈ SparseVector.pairs vec ->
            is_Some (SparseIdSet.ToSparseId (ItemIdSet dataSet) p.1)) as Hconv.
  { intros p Hp. subst vec. rewrite pairs_vector_of in Hp.
    apply elem_of_row_inv in Hp as (rec & Hin & _ & ->). cbn.
    exists (item_of rec).
    apply IdSetFacts.ToSparseId_ToDenseId; [exact (b_iwf _ _ _ Hb)|].
    exact (b_ireg _ _ _ Hb _ Hin). }
  assert (length (SparseVector.Indices vec) = length (SparseVector.Values vec)) as Hlen.
  { subst vec. cbn. by rewrite !length_fmap. }
  destruct (GetUserRatingsSet_spec _ _ _ Hvec Hlen Hconv) as (set & Hget & Hmat & Hlook).
  exists vec, set. repeat (split; [done|]).
  intros j idx value Hj Hlast.
  destruct (Hconv (idx, value)) as [itemId Hs].
  { by apply list_elem_of_lookup_2 in Hj. }
  cbn in Hs. exists itemId. split; [exact Hs|]. rewrite Hlook.
  apply (last_rating_at _ _ j idx value); [done..|].
  intros k idx' value' Hlt Hk Hs'.
  assert (idx' = idx) as ->.
  { apply (IdSetFacts.ToDenseId_ToSparseId _ _ _ (b_iwf _ _ _ Hb)) in Hs, Hs'. congruence. }
  by apply (Hlast k value').
Qed.

(** C3 for user 5 of [sample_table], who rated item 7 twice: the later
    rating, 2.0, is the one in the map. *)
Lemma GetUserRatingsSet_last_wins_witness :
  exists dataSet set,
    NewDataSet sample_table = Some dataSet
    /\ GetUserRatingsSet dataSet 5 = Some set
    /\ set !! 7 = Some 2%float
    /\ set !! 8 = Some 1%float.
Proof.
  destruct (GetUserRatingsSet_last_wins sample_table) as (dataSet & E & H).
  destruct (H 5) as (vec & set & Hvec & Hget & _ & Hlook & _).
  - vm_compute in E; injection E as <-. vm_compute. eauto.
  - exists dataSet, set. split; [exact E|]. split; [exact Hget|].
    vm_compute in E; injection E as <-. vm_compute in Hvec. injection Hvec as <-.
    rewrite !Hlook. split; reflexivity.
Defined.

(** C8. The DataSet of [TestDataSet_GetUserRatingsSet]: the item
    IdentifierSet holds the dense-to-sparse pairs 0:0, 1:2, 2:4, 3:6, and
    the user with dense id 0 (sparse id 2) holds the pairs (1, 10.0) and
    (2, 20.0). [GetUserRatingsSet(2)] returns exactly the map
    [{2: 10.0, 4: 20.0}]. *)
Theorem GetUserRatingsSet_scenario :
  GetUserRatingsSet test_DataSet 2 = Some {[ 2 := 10%float; 4 := 20%float ]}.
Proof. vm_compute. reflexivity. Qed.

(** * Lookups of unregistered ids, and the mean of an empty table *)

Lemma built_nonempty_UserCount table p set rec :
  built table p set -> rec ∈ table -> 0 < UserCount set.
Proof.
  intros Hb Hin.
  pose proof (IdSetFacts.ToDenseId_range _ _ (b_uwf _ _ _ Hb) (b_ureg _ _ _ Hb _ Hin)).
  unfold UserCount. lia.
Qed.

Lemma built_empty_UserCount p set : built [] p set -> UserCount set = 0.
Proof. intros Hb. unfold UserCount. by rewrite (b_uset _ _ _ Hb). Qed.

Lemma built_row_convertible table set d p :
  built table table set ->
  p ∈ SparseVector.pairs (vector_of (row (udense set) (idense set) table d)) ->
  is_Some (SparseIdSet.ToSparseId (ItemIdSet set) p.1).
Proof.
  intros Hb Hp. rewrite pairs_vector_of in Hp.
  apply elem_of_row_inv in Hp as (rec & Hin & _ & ->). cbn.
  exists (item_of rec).
  apply IdSetFacts.ToSparseId_ToDenseId; [exact (b_iwf _ _ _ Hb)|].
  exact (b_ireg _ _ _ Hb _ Hin).
Qed.

(** C4, the claim as stated, fails: in the DataSet built from the single
    record (5, 7, 3.0) the user id 99 was never registered, yet [ToDenseId]
    answers 0 and [GetUserRatingsSet(99)] returns the ratings of user 5
    with no failure signal. *)
Lemma unregistered_lookup_is_silent :
  exists dataSet,
    NewDataSet [(5, 7, 3%float)] = Some dataSet
    /\ SparseIdSet.DenseIds (UserIdSet dataSet) !! 99 = None
    /\ SparseIdSet.ToDenseId (UserIdSet dataSet) 99 = 0
    /\ GetUserRatingsSet dataSet 99 = Some {[ 7 := 3%float ]}
    /\ GetUserRatingsSet dataSet 5 = Some {[ 7 := 3%float ]}.
Proof. eexists. split; [reflexivity|]. by vm_compute. Qed.

(** C4 as amended. For an id never registered, [ToDenseId] returns the
    dense id 0 with no failure signal, and [GetUserRatingsSet] returns what
    it returns for the user whose dense id is 0; it panics only when the
    raw table was empty. [ToSparseId] panics for every dense id outside
    [[0, count)]. *)
Theorem unregistered_lookup (table : Table.t) :
  exists dataSet,
    NewDataSet table = Some dataSet
    /\ (forall userId,
          SparseIdSet.DenseIds (UserIdSet dataSet) !! userId = None ->
          SparseIdSet.ToDenseId (UserIdSet dataSet) userId = 0
          /\ (table <> [] ->
              exists user0 set,
                SparseIdSet.ToSparseId (UserIdSet dataSet) 0 = Some user0
                /\ GetUserRatingsSet dataSet user0 = Some set
                /\ GetUserRatingsSet dataSet userId = Some set)
          /\ (table = [] -> GetUserRatingsSet dataSet userId = None))
    /\ (forall itemId,
          SparseIdSet.DenseIds (ItemIdSet dataSet) !! itemId = None ->
          SparseIdSet.ToDenseId (ItemIdSet dataSet) itemId = 0)
    /\ (forall denseId,
          ~ 0 <= denseId < UserCount dataSet ->
          SparseIdSet.ToSparseId (UserIdSet dataSet) denseId = None)
    /\ (forall denseId,
          ~ 0 <= denseId < ItemCount dataSet ->
          SparseIdSet.ToSparseId (ItemIdSet dataSet) denseId = None).
Proof.
  destruct (NewDataSet_built table) as (dataSet & E & Hb).
  exists dataSet. split; [exact E|].
  assert (forall (set : SparseIdSet.t) d, ~ 0 <= d < SparseIdSet.Len set ->
            SparseIdSet.ToSparseId set d = None) as Hout.
  { intros set d Hd. unfold SparseIdSet.ToSparseId.
    destruct (index (SparseIdSet.SparseIds set) d) as [s|] eqn:Es; [|done].
    apply index_lt in Es. by destruct Hd. }
  split; [|split; [|split]].
  - intros userId Hnone.
    pose proof (IdSetFacts.ToDenseId_None _ _ Hnone) as H0.
    split; [exact H0|]. split.
    + intros Hne. destruct table as [|rec table']; [done|].
      assert (0 <= 0 < UserCount dataSet) as Hrange.
      { assert (rec ∈ rec :: table') as Hin by (by left).
        pose proof (built_nonempty_UserCount _ _ _ rec Hb Hin). lia. }
      destruct (index_is_Some (SparseIdSet.SparseIds (UserIdSet dataSet)) 0 Hrange)
        as [user0 Hu0].
      pose proof (IdSetFacts.ToDenseId_ToSparseId _ _ _ (b_uwf _ _ _ Hb) Hu0) as Hd0.
      pose proof (b_urows _ _ _ Hb _ Hrange) as Hvec.
      rewrite <- H0 in Hvec.
      destruct (GetUserRatingsSet_spec dataSet userId _ Hvec) as (set & Hget & _).
      { cbn. by rewrite !length_fmap. }
      { intros p. by apply built_row_convertible. }
      exists user0, set. split; [exact Hu0|]. split; [|exact Hget].
      rewrite <- Hget. unfold GetUserRatingsSet. by rewrite Hd0, H0.
    + intros ->. unfold GetUserRatingsSet. rewrite H0.
      assert (DenseUserRatings dataSet = []) as ->; [|done].
      pose proof (b_ulen _ _ _ Hb) as Hl. rewrite (built_empty_UserCount _ _ Hb) in Hl.
      unfold len in Hl. destruct (DenseUserRatings dataSet); [done|]. cbn in Hl. lia.
  - intros itemId Hnone. by apply IdSetFacts.ToDenseId_None.
  - intros d Hd. by apply Hout.
  - intros d Hd. by apply Hout.
Qed.

(** The amended C4 at a concrete DataSet: the table with the records
    (5, 7, 3.0) and (6, 8, 1.0), and the unregistered user id 99. *)
Lemma unregistered_lookup_witness :
  exists dataSet,
    NewDataSet [(5, 7, 3%float); (6, 8, 1%float)] = Some dataSet
    /\ SparseIdSet.ToDenseId (UserIdSet dataSet) 99 = 0
    /\ (exists user0 set,
          SparseIdSet.ToSparseId (UserIdSet dataSet) 0 = Some user0
          /\ GetUserRatingsSet dataSet user0 = Some set
          /\ GetUserRatingsSet dataSet 99 = Some set)
    /\ SparseIdSet.ToSparseId (ItemIdSet dataSet) 2 = None.
Proof.
  destruct (unregistered_lookup [(5, 7, 3%float); (6, 8, 1%float)])
    as (dataSet & E & Hu & _ & _ & Hi).
  exists dataSet. split; [exact E|].
  vm_compute in E; injection E as <-.
  destruct (Hu 99) as (H0 & Hget & _); [by vm_compute|].
  split; [exact H0|]. split; [by apply Hget|].
  apply Hi. vm_compute. intros [_ H]. discriminate H.
Defined.

(** C7, the claim as stated, fails: for the empty raw table the stored
    [GlobalMean] is NaN, the result of dividing 0 by 0. *)
Lemma GlobalMean_empty_is_NaN :
  exists dataSet,
    NewDataSet [] = Some dataSet /\ PrimFloat.is_nan (GlobalMean dataSet) = true.
Proof. eexists. split; reflexivity. Qed.

(** C7 as amended. [GlobalMean] is the value of [table.Mean()], the sum of
    the ratings divided by their number, stored once at construction and
    left alone by both passes; for the empty raw table it is NaN. *)
Theorem GlobalMean_is_Mean :
  (forall table : Table.t,
     exists dataSet,
       NewDataSet table = Some dataSet
       /\ GlobalMean dataSet = Table.Mean table
       /\ GlobalMean dataSet
          = (fold_left PrimFloat.add (Table.ratings table) 0
             / Table.float64_of_int (Table.Len table))%float)
  /\ PrimFloat.is_nan (Table.Mean []) = true
  /\ Table.Mean [(1, 1, 1%float); (1, 2, 2%float)] = 1.5%float.
Proof.
  split; [|split; reflexivity].
  intros table. destruct (NewDataSet_built table) as (dataSet & E & Hb).
  exists dataSet. split; [exact E|]. split; exact (b_mean _ _ _ Hb).
Qed.

(** * The CSV loader *)

Section Loader.

Variable ParseFloat : string -> Z -> float * option strconv.NumError.
Variable sep : string.

Lemma index_nth (fields : list string) (n : nat) :
  (n < length fields)%nat -> index fields (Z.of_nat n) = Some (nth n fields EmptyString).
Proof.
  intros Hlt. rewrite index_of_nat.
  destruct (nth_lookup_or_length fields n EmptyString) as [H|H]; [exact H|lia].
Qed.

Lemma scan_line_skipped line st :
  hasHeader st = false -> kept sep line = false ->
  scan_line ParseFloat sep line st = Some st.
Proof.
  intros Hh Hk. unfold scan_line. rewrite Hh.
  apply bool_decide_eq_false in Hk. rewrite decide_True by lia. done.
Qed.

Lemma scan_line_kept line st :
  hasHeader st = false -> (3 <= length (strings.Split line sep))%nat ->
  scan_line ParseFloat sep line st
  = Some {| users := users st ++ [(record_of ParseFloat sep line).1.1];
            items := items st ++ [(record_of ParseFloat sep line).1.2];
            ratings := ratings st ++ [(record_of ParseFloat sep line).2];
            hasHeader := false |}.
Proof.
  intros Hh Hlen. unfold scan_line. rewrite Hh.
  rewrite decide_False by (unfold len; lia).
  rewrite (index_nth _ 0), (index_nth _ 1), (index_nth _ 2) by lia.
  reflexivity.
Qed.

Lemma scan_line_two_fields line st :
  hasHeader st = false -> length (strings.Split line sep) = 2%nat ->
  scan_line ParseFloat sep line st = None.
Proof.
  intros Hh Hlen. unfold scan_line. rewrite Hh.
  rewrite decide_False by (unfold len; lia).
  rewrite (index_nth _ 0), (index_nth _ 1) by lia. cbn.
  assert (index (strings.Split line sep) 2 = None) as ->; [|done].
  unfold index. rewrite decide_True by lia. apply lookup_ge_None_2. lia.
Qed.

Lemma scan_line_header_off line st st' :
  hasHeader st = false -> scan_line ParseFloat sep line st = Some st' ->
  hasHeader st' = false.
Proof.
  intros Hh. unfold scan_line. rewrite Hh.
  destruct (decide _); [by intros [= <-]|].
  destruct (index _ 0); [|done]. cbn. destruct (index _ 1); [|done]. cbn.
  destruct (index _ 2); [|done]. cbn. by intros [= <-].
Qed.

(** The loop on lines none of which has exactly two fields: one record per
    line the guard lets through, in order. *)
Lemma scan_lines_records lines st :
  hasHeader st = false ->
  (forall line, line ∈ lines -> length (strings.Split line sep) <> 2%nat) ->
  scan_lines ParseFloat sep lines st
  = Some {| users := users st
                     ++ map (fun l => (record_of ParseFloat sep l).1.1) (filter (kept sep) lines);
            items := items st
                     ++ map (fun l => (record_of ParseFloat sep l).1.2) (filter (kept sep) lines);
            ratings := ratings st
                       ++ map (fun l => (record_of ParseFloat sep l).2) (filter (kept sep) lines);
            hasHeader := false |}.
Proof.
  revert st. induction lines as [|line rest IH]; intros st Hh Hno.
  - cbn. rewrite !app_nil_r. destruct st. cbn in Hh. by rewrite Hh.
  - assert (forall l, l ∈ rest -> length (strings.Split l sep) <> 2%nat) as Hrest.
    { intros l Hl. apply Hno. by right. }
    assert (length (strings.Split line sep) <> 2%nat) as Hline.
    { apply Hno. by left. }
    cbn [scan_lines]. destruct (kept sep line) eqn:Ek.
    + assert (3 <= length (strings.Split line sep))%nat as H3.
      { apply bool_decide_eq_true in Ek. unfold len in Ek. lia. }
      rewrite (scan_line_kept _ _ Hh H3), IH by done.
      rewrite filter_cons_True by (by rewrite Ek). cbn.
      by rewrite <- !app_assoc.
    + rewrite (scan_line_skipped _ _ Hh Ek), IH by done.
      rewrite filter_cons_False; [done|]. rewrite Ek. exact id.
Qed.

(** The loop on lines one of which has exactly two fields. *)
Lemma scan_lines_panic lines st line :
  hasHeader st = false ->
  line ∈ lines -> length (strings.Split line sep) = 2%nat ->
  scan_lines ParseFloat sep lines st = None.
Proof.
  revert st. induction lines as [|l rest IH]; intros st Hh Hin Hlen.
  - by apply elem_of_nil in Hin.
  - cbn. apply elem_of_cons in Hin as [<-|Hin].
    + by rewrite scan_line_two_fields.
    + destruct (scan_line ParseFloat sep l st) as [st'|] eqn:E; [|done].
      apply IH; [|done..]. by apply (scan_line_header_off l st).
Qed.

(** The loop starts by dropping the header line, if the file has one. *)
Lemma LoadDataFromCSV_data_lines lines (h : bool) :
  LoadDataFromCSV ParseFloat lines sep h
  = LoadDataFromCSV ParseFloat (data_lines lines h) sep false.
Proof. destruct h; [|done]. by destruct lines. Qed.

Lemma NewDataTable_records (l : list string) :
  Table.NewDataTable (map (fun l => (record_of ParseFloat sep l).1.1) l)
                     (map (fun l => (record_of ParseFloat sep l).1.2) l)
                     (map (fun l => (record_of ParseFloat sep l).2) l)
  = map (record_of ParseFloat sep) l.
Proof.
  unfold Table.NewDataTable. induction l as [|x l IH]; [done|].
  cbn [map zip zip_with]. rewrite IH.
  by destruct (record_of ParseFloat sep x) as [[u i] r].
Qed.

End Loader.

Lemma parse_int_syntax_error neg body v :
  strconv.parse_int neg body = (v, Some strconv.ErrSyntax) -> v = 0.
Proof.
  unfold strconv.parse_int. destruct body; [congruence|].
  destruct (strconv.parse_uint _ 0); destruct neg; repeat case_decide; congruence.
Qed.

Lemma parse_int_range_error neg body v :
  strconv.parse_int neg body = (v, Some strconv.ErrRange) ->
  v = strconv.MaxInt64 \/ v = strconv.MinInt64.
Proof.
  unfold strconv.parse_int. destruct body; [congruence|].
  destruct (strconv.parse_uint _ 0); destruct neg; repeat case_decide;
    intros [= <-]; auto.
Qed.

Lemma Atoi_syntax_error s v : strconv.Atoi s = (v, Some strconv.ErrSyntax) -> v = 0.
Proof.
  unfold strconv.Atoi. destruct s as [|c s']; [congruence|].
  destruct (Ascii.eqb c _); [apply parse_int_syntax_error|].
  destruct (Ascii.eqb c _); apply parse_int_syntax_error.
Qed.

Lemma Atoi_range_error s v :
  strconv.Atoi s = (v, Some strconv.ErrRange) ->
  v = strconv.MaxInt64 \/ v = strconv.MinInt64.
Proof.
  unfold strconv.Atoi. destruct s as [|c s']; [congruence|].
  destruct (Ascii.eqb c _); [apply parse_int_range_error|].
  destruct (Ascii.eqb c _); apply parse_int_range_error.
Qed.

Open Scope string_scope.

(** C9, the claim as stated, fails: the user field of the line
    [99999999999999999999,1,3] fails numeric parsing (it does not fit an
    [int]); the record is kept, but the value recorded for the field is
    9223372036854775807, not zero. *)
Lemma parse_failure_not_zero :
  strconv.Atoi "99999999999999999999" = (9223372036854775807, Some strconv.ErrRange)
  /\ exists dataSet,
       LoadDataFromCSV strconv.ParseFloat_decimal ["99999999999999999999,1,3"] "," false
       = Some dataSet
       /\ Table_ dataSet = [(9223372036854775807, 1, 3%float)].
Proof.
  split; [by vm_compute|]. eexists. split; [vm_compute; reflexivity|]. by vm_compute.
Qed.

Lemma ParseFloat_decimal_syntax_error s bitSize v :
  strconv.ParseFloat_decimal s bitSize = (v, Some strconv.ErrSyntax) -> v = 0%float.
Proof.
  unfold strconv.ParseFloat_decimal.
  destruct (strconv.signed_float s) as [[[neg m] e]|]; [|by intros [= <-]].
  destruct (if decide (bitSize = 32) then _ else _); intros [=].
Qed.

Lemma ParseFloat_decimal_range_error s bitSize v :
  strconv.ParseFloat_decimal s bitSize = (v, Some strconv.ErrRange) ->
  v = infinity \/ v = neg_infinity.
Proof.
  unfold strconv.ParseFloat_decimal.
  destruct (strconv.signed_float s) as [[[neg m] e]|]; [|by intros [=]].
  destruct (if decide (bitSize = 32) then _ else _) as [| [|] | |]; intros [= <-]; auto.
Qed.

(** C9 as amended. [ParseFloat] stands for [strconv.ParseFloat], of which
    only its documented results on an error are used: 0 with a syntax error,
    an infinity with a range error. On a line with at least three fields the
    loop appends the record whatever the parsers report: a field with a
    syntax error is recorded as zero, a user or item id out of range as a
    bound of [int], a rating out of range as an infinity. When no parsed
    line splits into exactly two fields the loader returns, and the raw
    table it builds has one record per line the guard lets through, in
    order. *)
Theorem LoadDataFromCSV_keeps_records
    (ParseFloat : string -> Z -> float * option strconv.NumError)
    (lines : list string) (sep : string) (hasHeader : bool) :
  (forall s v, ParseFloat s 32 = (v, Some strconv.ErrSyntax) -> v = 0%float) ->
  (forall s v, ParseFloat s 32 = (v, Some strconv.ErrRange) ->
     v = infinity \/ v = neg_infinity) ->
  (forall line field0 field1 field2 rest us its rs,
     strings.Split line sep = field0 :: field1 :: field2 :: rest ->
     let user := (strconv.Atoi field0).1 in
     let item := (strconv.Atoi field1).1 in
     let rating := (ParseFloat field2 32).1 in
     scan_line ParseFloat sep line (mkLoader us its rs false)
     = Some (mkLoader (us ++ [user]) (its ++ [item]) (rs ++ [rating]) false)
     /\ record_of ParseFloat sep line = (user, item, rating)
     /\ ((strconv.Atoi field0).2 = Some strconv.ErrSyntax -> user = 0)
     /\ ((strconv.Atoi field0).2 = Some strconv.ErrRange ->
         user = strconv.MaxInt64 \/ user = strconv.MinInt64)
     /\ ((strconv.Atoi field1).2 = Some strconv.ErrSyntax -> item = 0)
     /\ ((strconv.Atoi field1).2 = Some strconv.ErrRange ->
         item = strconv.MaxInt64 \/ item = strconv.MinInt64)
     /\ ((ParseFloat field2 32).2 = Some strconv.ErrSyntax -> rating = 0%float)
     /\ ((ParseFloat field2 32).2 = Some strconv.ErrRange ->
         rating = infinity \/ rating = neg_infinity))
  /\ ((forall line, line ∈ data_lines lines hasHeader ->
         length (strings.Split line sep) <> 2%nat) ->
      exists dataSet,
        LoadDataFromCSV ParseFloat lines sep hasHeader = Some dataSet
        /\ Table_ dataSet
           = map (record_of ParseFloat sep)
                 (filter (kept sep) (data_lines lines hasHeader))).
Proof.
  intros Hsyntax Hrange. split.
  - intros line field0 field1 field2 rest us its rs Hsplit user item rating.
    assert (forall s e, (strconv.Atoi s).2 = Some e ->
              strconv.Atoi s = ((strconv.Atoi s).1, Some e)) as Hpair.
    { intros s e He. destruct (strconv.Atoi s). cbn in He. by subst. }
    assert (forall s e, (ParseFloat s 32).2 = Some e ->
              ParseFloat s 32 = ((ParseFloat s 32).1, Some e)) as Hpair'.
    { intros s e He. destruct (ParseFloat s 32). cbn in He. by subst. }
    split.
    { rewrite (scan_line_kept ParseFloat sep line (mkLoader us its rs false) eq_refl)
        by (rewrite Hsplit; cbn; lia).
      unfold record_of. rewrite Hsplit. reflexivity. }
    split. { unfold record_of. rewrite Hsplit. reflexivity. }
    split. { intros He. exact (Atoi_syntax_error _ _ (Hpair _ _ He)). }
    split. { intros He. exact (Atoi_range_error _ _ (Hpair _ _ He)). }
    split. { intros He. exact (Atoi_syntax_error _ _ (Hpair _ _ He)). }
    split. { intros He. exact (Atoi_range_error _ _ (Hpair _ _ He)). }
    split. { intros He. exact (Hsyntax _ _ (Hpair' _ _ He)). }
    intros He. exact (Hrange _ _ (Hpair' _ _ He)).
  - intros Hno. rewrite LoadDataFromCSV_data_lines. unfold LoadDataFromCSV.
    rewrite (scan_lines_records ParseFloat sep _ (mkLoader [] [] [] false) eq_refl Hno).
    cbn [mbind option_bind users items ratings app].
    rewrite NewDataTable_records.
    destruct (NewDataSet_built
                (map (record_of ParseFloat sep)
                     (filter (kept sep) (data_lines lines hasHeader))))
      as (dataSet & E & Hb).
    exists dataSet. split; [exact E|]. exact (b_table _ _ _ Hb).
Qed.

(** The amended C9 on a file with a header, a well-formed line, a line with
    two fields that are no numerals, an empty line, a line whose user id is
    out of range before a byte that is no digit, and a line whose rating is
    out of range. *)
Lemma LoadDataFromCSV_keeps_records_witness :
  exists dataSet,
    LoadDataFromCSV strconv.ParseFloat_decimal
      ["user,item,rating"; "1,2,3.5"; "x,7,oops"; "";
       "99999999999999999999x,1,3"; "4,5,1e39"]
      "," true
    = Some dataSet
    /\ Table_ dataSet
       = [(1, 2, 3.5%float); (0, 7, 0%float); (9223372036854775807, 1, 3%float);
          (4, 5, infinity)].
Proof.
  destruct (LoadDataFromCSV_keeps_records strconv.ParseFloat_decimal
              ["user,item,rating"; "1,2,3.5"; "x,7,oops"; "";
               "99999999999999999999x,1,3"; "4,5,1e39"]
              "," true) as [_ H].
  - intros s v. apply ParseFloat_decimal_syntax_error.
  - intros s v. apply ParseFloat_decimal_range_error.
  - destruct H as (dataSet & E & Ht).
    + intros line Hin. cbn in Hin.
      repeat (apply elem_of_cons in Hin as [->|Hin]); try (by vm_compute).
      by apply elem_of_nil in Hin.
    + exists dataSet. split; [exact E|]. rewrite Ht. by vm_compute.
Defined.

(** C10 fails on the code: a line that splits into exactly two fields
    passes the guard of line 142, and the read of [fields[2]] on line 147
    is out of range: the loader panics. *)
Theorem LoadDataFromCSV_two_fields
    (ParseFloat : string -> Z -> float * option strconv.NumError)
    (lines : list string) (sep : string) (hasHeader : bool) (line : string) :
  line ∈ data_lines lines hasHeader ->
  length (strings.Split line sep) = 2%nat ->
  kept sep line = true
  /\ is_Some (index (strings.Split line sep) 0)
  /\ is_Some (index (strings.Split line sep) 1)
  /\ index (strings.Split line sep) 2 = None
  /\ LoadDataFromCSV ParseFloat lines sep hasHeader = None.
Proof.
  intros Hin Hlen.
  split. { apply bool_decide_eq_true. unfold len. lia. }
  split. { apply index_is_Some. unfold len. lia. }
  split. { apply index_is_Some. unfold len. lia. }
  split. { unfold index. rewrite decide_True by lia. apply lookup_ge_None_2. lia. }
  rewrite LoadDataFromCSV_data_lines. unfold LoadDataFromCSV.
  by rewrite (scan_lines_panic ParseFloat sep _ (mkLoader [] [] [] false) line eq_refl Hin Hlen).
Qed.

(** The failing input of C10: the file whose only line is [1,2]. *)
Lemma LoadDataFromCSV_two_fields_witness :
  strings.Split "1,2" "," = ["1"; "2"]
  /\ LoadDataFromCSV strconv.ParseFloat_decimal ["1,2"] "," false = None.
Proof.
  split; [reflexivity|].
  apply (LoadDataFromCSV_two_fields strconv.ParseFloat_decimal ["1,2"] "," false "1,2").
  - by left.
  - reflexivity.
Defined.

(** * More about the constructor *)

Close Scope string_scope.

Section FirstSeen.
Import IdSetWf IdSetFacts.

Lemma elem_of_SparseIds set s :
  wf set -> s ∈ SparseIdSet.SparseIds set <-> is_Some (SparseIdSet.DenseIds set !! s).
Proof.
  intros Hwf. split.
  - intros (i & Hi)%list_elem_of_lookup_1. exists (Z.of_nat i).
    apply (wf_sparse _ Hwf). by rewrite index_of_nat.
  - intros [d Hd]. apply (wf_dense _ Hwf) in Hd.
    apply index_Some in Hd as [_ Hd]. by apply list_elem_of_lookup_2 in Hd.
Qed.

Lemma SparseIds_Add set s :
  wf set ->
  SparseIdSet.SparseIds (SparseIdSet.Add set s)
  = if decide (s ∈ SparseIdSet.SparseIds set)
    then SparseIdSet.SparseIds set else SparseIdSet.SparseIds set ++ [s].
Proof.
  intros Hwf. destruct (SparseIdSet.DenseIds set !! s) as [d|] eqn:E.
  - rewrite (Add_known _ _ _ E). rewrite decide_True; [done|].
    apply elem_of_SparseIds; [done|]. by rewrite E.
  - rewrite (Add_fresh _ _ E). cbn. rewrite decide_False; [done|].
    intros Hin%elem_of_SparseIds; [|done]. rewrite E in Hin. by destruct Hin.
Qed.

(** Registering the values of [l] one after the other, from the ids [acc]. *)
Lemma first_seen_from (acc l : list Z) :
  fold_left (fun acc x => if decide (x ∈ acc) then acc else acc ++ [x]) l acc
  = acc ++ filter (fun y => y ∉ acc) (first_seen l).
Proof.
  revert acc. induction l as [|x l IH]; intros acc; cbn [fold_left first_seen].
  - by rewrite filter_nil, app_nil_r.
  - rewrite IH. destruct (decide (x ∈ acc)) as [Hin|Hin].
    + rewrite filter_cons_False by (intros Hn; exact (Hn Hin)). f_equal.
      symmetry. apply list_filter_filter_l. intros y Hy ->. exact (Hy Hin).
    + rewrite filter_cons_True by done. rewrite <- app_assoc. cbn. do 2 f_equal.
      rewrite list_filter_filter. apply list_filter_iff.
      intros y. rewrite elem_of_app, list_elem_of_singleton. split.
      * intros Hy. split; [intros H1|intros H2]; apply Hy; [by left|by right].
      * intros [H1 H2] [H|H]; [by apply H1|by apply H2].
Qed.

Lemma elem_of_first_seen l x : x ∈ first_seen l <-> x ∈ l.
Proof.
  induction l as [|y l IH]; [done|]. cbn.
  rewrite !elem_of_cons, list_elem_of_filter, IH.
  destruct (decide (x = y)); tauto.
Qed.

Lemma NoDup_first_seen l : NoDup (first_seen l).
Proof.
  induction l as [|y l IH]; cbn; [constructor|].
  constructor.
  - rewrite list_elem_of_filter. tauto.
  - by apply NoDup_filter.
Qed.

Lemma first_seen_NoDup l : NoDup l -> first_seen l = l.
Proof.
  induction 1 as [|x l Hx _ IH]; [done|]. cbn. rewrite IH. f_equal.
  clear IH. induction l as [|y l IHl]; [done|].
  rewrite filter_cons_True.
  - f_equal. apply IHl. intros Hin. apply Hx. by right.
  - intros ->. apply Hx. by left.
Qed.

Lemma length_first_seen l : (length (first_seen l) <= length l)%nat.
Proof.
  induction l as [|y l IH]; cbn; [done|].
  pose proof (length_filter (fun z => z <> y) (first_seen l)). lia.
Qed.

Lemma ForEach_cons {S} (table : Table.t) rec (f : Z -> Z -> float -> S -> S) s :
  Table.ForEach (rec :: table) f s
  = Table.ForEach table f (f (user_of rec) (item_of rec) (rating_of rec) s).
Proof. by destruct rec as [[u i] r]. Qed.

(** The id sets after the first pass over [p], from any well-formed state. *)
Lemma pass1_SparseIds p set0 :
  wf (UserIdSet set0) -> wf (ItemIdSet set0) ->
  SparseIdSet.SparseIds (UserIdSet (Table.ForEach p pass1 set0))
  = fold_left (fun acc x => if decide (x ∈ acc) then acc else acc ++ [x])
      (map user_of p) (SparseIdSet.SparseIds (UserIdSet set0))
  /\ SparseIdSet.SparseIds (ItemIdSet (Table.ForEach p pass1 set0))
     = fold_left (fun acc x => if decide (x ∈ acc) then acc else acc ++ [x])
         (map item_of p) (SparseIdSet.SparseIds (ItemIdSet set0)).
Proof.
  revert set0. induction p as [|rec p IH]; intros set0 Hu Hi; [done|].
  rewrite ForEach_cons. cbn [map fold_left].
  destruct (IH (pass1 (user_of rec) (item_of rec) (rating_of rec) set0)) as [IHu IHi].
  { by apply wf_Add. }
  { by apply wf_Add. }
  rewrite IHu, IHi. cbn [pass1 UserIdSet ItemIdSet].
  by rewrite !SparseIds_Add.
Qed.

Lemma filter_not_in_nil (l : list Z) : filter (fun y => y ∉ []) l = l.
Proof.
  induction l as [|x l IH]; [done|].
  rewrite filter_cons_True by apply not_elem_of_nil. by rewrite IH.
Qed.

Lemma built_SparseIds table p set :
  built table p set ->
  SparseIdSet.SparseIds (UserIdSet set) = first_seen (map user_of table)
  /\ SparseIdSet.SparseIds (ItemIdSet set) = first_seen (map item_of table).
Proof.
  intros Hb. rewrite (b_uset _ _ _ Hb), (b_iset _ _ _ Hb).
  cbn [NewDataSet_allocated UserIdSet ItemIdSet].
  edestruct pass1_SparseIds as [-> ->]; [apply wf_New..|].
  cbn [UserIdSet ItemIdSet SparseIdSet.NewSparseIdSet SparseIdSet.SparseIds].
  by rewrite !first_seen_from, !filter_not_in_nil.
Qed.

Lemma built_registered_user table p set u :
  built table p set ->
  is_Some (SparseIdSet.DenseIds (UserIdSet set) !! u) <-> u ∈ map user_of table.
Proof.
  intros Hb. rewrite <- (elem_of_SparseIds _ _ (b_uwf _ _ _ Hb)).
  destruct (built_SparseIds _ _ _ Hb) as [-> _]. apply elem_of_first_seen.
Qed.

Lemma built_registered_item table p set it :
  built table p set ->
  is_Some (SparseIdSet.DenseIds (ItemIdSet set) !! it) <-> it ∈ map item_of table.
Proof.
  intros Hb. rewrite <- (elem_of_SparseIds _ _ (b_iwf _ _ _ Hb)).
  destruct (built_SparseIds _ _ _ Hb) as [_ ->]. apply elem_of_first_seen.
Qed.

End FirstSeen.

(** X1. The user id set of a DataSet lists the distinct user ids of the
    raw table, each once, in the order of their first record, and the item
    id set does the same for the item ids: an id is registered exactly when
    a record carries it, and there are no more users or items than
    records. *)
Theorem NewDataSet_id_sets (table : Table.t) :
  exists dataSet,
    NewDataSet table = Some dataSet
    /\ SparseIdSet.SparseIds (UserIdSet dataSet) = first_seen (map user_of table)
    /\ SparseIdSet.SparseIds (ItemIdSet dataSet) = first_seen (map item_of table)
    /\ NoDup (SparseIdSet.SparseIds (UserIdSet dataSet))
    /\ NoDup (SparseIdSet.SparseIds (ItemIdSet dataSet))
    /\ (forall userId,
          is_Some (SparseIdSet.DenseIds (UserIdSet dataSet) !! userId)
          <-> userId ∈ map user_of table)
    /\ (forall itemId,
          is_Some (SparseIdSet.DenseIds (ItemIdSet dataSet) !! itemId)
          <-> itemId ∈ map item_of table)
    /\ UserCount dataSet <= Table.Len table
    /\ ItemCount dataSet <= Table.Len table.
Proof.
  destruct (NewDataSet_built table) as (dataSet & E & Hb).
  exists dataSet. split; [exact E|].
  destruct (built_SparseIds _ _ _ Hb) as [Hu Hi].
  split; [exact Hu|]. split; [exact Hi|].
  split. { rewrite Hu. apply NoDup_first_seen. }
  split. { rewrite Hi. apply NoDup_first_seen. }
  split. { intros u. by apply (built_registered_user table table). }
  split. { intros it. by apply (built_registered_item table table). }
  unfold UserCount, ItemCount, SparseIdSet.Len, Table.Len, len. rewrite Hu, Hi.
  pose proof (length_first_seen (map user_of table)).
  pose proof (length_first_seen (map item_of table)).
  rewrite length_map in *. lia.
Qed.

(** X2. Dense ids convert back: for every record [(u, it, r)] at position
    [i] of the raw table, [GetDense(i)] returns dense ids whose sparse ids
    are [u] and [it], with the rating [r], and [Get(i)] on the DataSet still
    returns the record. *)
Theorem GetDense_round_trip (table : Table.t) :
  exists dataSet,
    NewDataSet table = Some dataSet
    /\ forall i userId itemId rating,
         Table.Get table i = Some (userId, itemId, rating) ->
         Table.Get (Table_ dataSet) i = Some (userId, itemId, rating)
         /\ exists du di,
              GetDense dataSet i = Some (du, di, rating)
              /\ SparseIdSet.ToSparseId (UserIdSet dataSet) du = Some userId
              /\ SparseIdSet.ToSparseId (ItemIdSet dataSet) di = Some itemId.
Proof.
  destruct (NewDataSet_built table) as (dataSet & E & Hb).
  exists dataSet. split; [exact E|]. intros i u it r Hget.
  pose proof (Get_elem_of _ _ _ Hget) as Hin.
  assert (Table.Get (Table_ dataSet) i = Some (u, it, r)) as Hget'.
  { by rewrite (b_table _ _ _ Hb). }
  split; [exact Hget'|].
  exists (udense dataSet (u, it, r)), (idense dataSet (u, it, r)).
  split.
  - apply (GetDense_eq _ _ u it); [exact Hget'| |].
    + rewrite (b_uids _ _ _ Hb). by apply index_map.
    + rewrite (b_iids _ _ _ Hb). by apply index_map.
  - split.
    + apply IdSetFacts.ToSparseId_ToDenseId; [exact (b_uwf _ _ _ Hb)|].
      exact (b_ureg _ _ _ Hb _ Hin).
    + apply IdSetFacts.ToSparseId_ToDenseId; [exact (b_iwf _ _ _ Hb)|].
      exact (b_ireg _ _ _ Hb _ Hin).
Qed.

(** X2 at position 2 of [sample_table], the record (5, 8, 1.0). *)
Lemma GetDense_round_trip_witness :
  exists dataSet,
    NewDataSet sample_table = Some dataSet
    /\ exists du di,
         GetDense dataSet 2 = Some (du, di, 1%float)
         /\ SparseIdSet.ToSparseId (UserIdSet dataSet) du = Some 5
         /\ SparseIdSet.ToSparseId (ItemIdSet dataSet) di = Some 8.
Proof.
  destruct (GetDense_round_trip sample_table) as (dataSet & E & H).
  exists dataSet. split; [exact E|].
  destruct (H 2 5 8 1%float) as [_ Hd]; [reflexivity|exact Hd].
Defined.

Lemma udense_inj table p set rec1 rec2 :
  built table p set -> rec1 ∈ table -> rec2 ∈ table ->
  udense set rec1 = udense set rec2 <-> user_of rec1 = user_of rec2.
Proof.
  intros Hb H1 H2. split; [|unfold udense; by intros ->].
  intros Heq.
  pose proof (IdSetFacts.ToSparseId_ToDenseId _ _ (b_uwf _ _ _ Hb) (b_ureg _ _ _ Hb _ H1)) as E1.
  pose proof (IdSetFacts.ToSparseId_ToDenseId _ _ (b_uwf _ _ _ Hb) (b_ureg _ _ _ Hb _ H2)) as E2.
  unfold udense in Heq. rewrite Heq in E1. congruence.
Qed.

Lemma idense_inj table p set rec1 rec2 :
  built table p set -> rec1 ∈ table -> rec2 ∈ table ->
  idense set rec1 = idense set rec2 <-> item_of rec1 = item_of rec2.
Proof.
  intros Hb H1 H2. split; [|unfold idense; by intros ->].
  intros Heq.
  pose proof (IdSetFacts.ToSparseId_ToDenseId _ _ (b_iwf _ _ _ Hb) (b_ireg _ _ _ Hb _ H1)) as E1.
  pose proof (IdSetFacts.ToSparseId_ToDenseId _ _ (b_iwf _ _ _ Hb) (b_ireg _ _ _ Hb _ H2)) as E2.
  unfold idense in Heq. rewrite Heq in E1. congruence.
Qed.

(** X3. Two records get the same dense user id exactly when they have the
    same user id, and the same dense item id exactly when they have the
    same item id. *)
Theorem dense_ids_agree (table : Table.t) :
  exists dataSet,
    NewDataSet table = Some dataSet
    /\ forall i j rec_i rec_j,
         Table.Get table i = Some rec_i ->
         Table.Get table j = Some rec_j ->
         (index (DenseUserIds dataSet) i = index (DenseUserIds dataSet) j
          <-> user_of rec_i = user_of rec_j)
         /\ (index (DenseItemIds dataSet) i = index (DenseItemIds dataSet) j
             <-> item_of rec_i = item_of rec_j).
Proof.
  destruct (NewDataSet_built table) as (dataSet & E & Hb).
  exists dataSet. split; [exact E|]. intros i j ri rj Hi Hj.
  pose proof (Get_elem_of _ _ _ Hi) as Hini. pose proof (Get_elem_of _ _ _ Hj) as Hinj.
  rewrite (b_uids _ _ _ Hb), (b_iids _ _ _ Hb).
  rewrite (index_map (udense dataSet) _ _ _ Hi), (index_map (udense dataSet) _ _ _ Hj).
  rewrite (index_map (idense dataSet) _ _ _ Hi), (index_map (idense dataSet) _ _ _ Hj).
  rewrite <- (udense_inj _ _ _ ri rj Hb Hini Hinj).
  rewrite <- (idense_inj _ _ _ ri rj Hb Hini Hinj).
  split; split; congruence.
Qed.

(** X3 at the records 0 and 3 of [sample_table] (the same user and item)
    and at the records 0 and 1 (two users, one item). *)
Lemma dense_ids_agree_witness :
  exists dataSet,
    NewDataSet sample_table = Some dataSet
    /\ index (DenseUserIds dataSet) 0 = index (DenseUserIds dataSet) 3
    /\ index (DenseUserIds dataSet) 0 <> index (DenseUserIds dataSet) 1
    /\ index (DenseItemIds dataSet) 0 = index (DenseItemIds dataSet) 1.
Proof.
  destruct (dense_ids_agree sample_table) as (dataSet & E & H).
  exists dataSet. split; [exact E|].
  destruct (H 0 3 (5, 7, 3%float) (5, 7, 2%float)) as [H03 _]; [reflexivity..|].
  destruct (H 0 1 (5, 7, 3%float) (6, 7, 4%float)) as [H01 H01']; [reflexivity..|].
  split; [by apply H03|]. split; [|by apply H01'].
  intros Heq. apply H01 in Heq. discriminate Heq.
Defined.

(** X4. Every dense id a DataSet stores is in range: the entries of
    [DenseUserIds] and the indices held by the item vectors are in
    [[0, UserCount())], the entries of [DenseItemIds] and the indices held
    by the user vectors are in [[0, ItemCount())]. *)
Theorem dense_ids_in_range (table : Table.t) :
  exists dataSet,
    NewDataSet table = Some dataSet
    /\ (forall i d, index (DenseUserIds dataSet) i = Some d -> 0 <= d < UserCount dataSet)
    /\ (forall i d, index (DenseItemIds dataSet) i = Some d -> 0 <= d < ItemCount dataSet)
    /\ (forall d vec idx,
          index (DenseUserRatings dataSet) d = Some vec ->
          idx ∈ SparseVector.Indices vec -> 0 <= idx < ItemCount dataSet)
    /\ (forall d vec idx,
          index (DenseItemRatings dataSet) d = Some vec ->
          idx ∈ SparseVector.Indices vec -> 0 <= idx < UserCount dataSet).
Proof.
  destruct (NewDataSet_built table) as (dataSet & E & Hb).
  exists dataSet. split; [exact E|].
  assert (forall rec, rec ∈ table -> 0 <= udense dataSet rec < UserCount dataSet) as Hu.
  { intros rec Hin.
    exact (IdSetFacts.ToDenseId_range _ _ (b_uwf _ _ _ Hb) (b_ureg _ _ _ Hb _ Hin)). }
  assert (forall rec, rec ∈ table -> 0 <= idense dataSet rec < ItemCount dataSet) as Hi.
  { intros rec Hin.
    exact (IdSetFacts.ToDenseId_range _ _ (b_iwf _ _ _ Hb) (b_ireg _ _ _ Hb _ Hin)). }
  split; [|split; [|split]].
  - intros i d [_ Hd]%index_Some. rewrite (b_uids _ _ _ Hb) in Hd.
    apply list_elem_of_lookup_2, list_elem_of_In, in_map_iff in Hd as (rec & <- & Hin).
    by apply Hu, list_elem_of_In.
  - intros i d [_ Hd]%index_Some. rewrite (b_iids _ _ _ Hb) in Hd.
    apply list_elem_of_lookup_2, list_elem_of_In, in_map_iff in Hd as (rec & <- & Hin).
    by apply Hi, list_elem_of_In.
  - intros d vec idx Hvec Hidx.
    pose proof (index_lt _ _ _ Hvec) as Hd. rewrite (b_ulen _ _ _ Hb) in Hd.
    rewrite (b_urows _ _ _ Hb _ Hd) in Hvec. injection Hvec as <-. cbn in Hidx.
    apply list_elem_of_fmap in Hidx as ([idx' v] & -> & Hp).
    apply elem_of_row_inv in Hp as (rec & Hin & _ & [= -> _]). by apply Hi.
  - intros d vec idx Hvec Hidx.
    pose proof (index_lt _ _ _ Hvec) as Hd. rewrite (b_ilen _ _ _ Hb) in Hd.
    rewrite (b_irows _ _ _ Hb _ Hd) in Hvec. injection Hvec as <-. cbn in Hidx.
    apply list_elem_of_fmap in Hidx as ([idx' v] & -> & Hp).
    apply elem_of_row_inv in Hp as (rec & Hin & _ & [= -> _]). by apply Hu.
Qed.

(** X4 at the entry 1 of [DenseUserIds] for [sample_table]. *)
Lemma dense_ids_in_range_witness :
  exists dataSet,
    NewDataSet sample_table = Some dataSet /\ 0 <= 1 < UserCount dataSet.
Proof.
  destruct (dense_ids_in_range sample_table) as (dataSet & E & H & _).
  exists dataSet. split; [exact E|].
  apply (H 1). vm_compute in E. injection E as <-. reflexivity.
Defined.

Lemma row_filter key other (P : Z * Z * float -> Prop) `{!forall rec, Decision (P rec)}
    (l : list (Z * Z * float)) d :
  (forall rec, rec ∈ l -> key rec = d <-> P rec) ->
  row key other l d = map (fun rec => (other rec, rating_of rec)) (filter P l).
Proof.
  induction l as [|rec l IH]; intros HP; [done|].
  assert (forall rec', rec' ∈ l -> key rec' = d <-> P rec') as HP'.
  { intros rec' Hin. apply HP. by right. }
  assert (key rec = d <-> P rec) as Hrec by (apply HP; by left).
  change (row key other (rec :: l) d)
    with ((if decide (key rec = d) then [(other rec, rating_of rec)] else [])
          ++ row key other l d).
  rewrite (IH HP'). destruct (decide (key rec = d)) as [Hk|Hk].
  - rewrite filter_cons_True by (by apply Hrec). done.
  - rewrite filter_cons_False; [done|]. intros HPr. by apply Hk, Hrec.
Qed.

Lemma udense_ToSparseId table p set d userId rec :
  built table p set -> rec ∈ table ->
  SparseIdSet.ToSparseId (UserIdSet set) d = Some userId ->
  udense set rec = d <-> user_of rec = userId.
Proof.
  intros Hb Hin Hd. split.
  - intros <-.
    pose proof (IdSetFacts.ToSparseId_ToDenseId _ _ (b_uwf _ _ _ Hb) (b_ureg _ _ _ Hb _ Hin)) as E.
    unfold udense in Hd. congruence.
  - intros Hu. unfold udense. rewrite Hu.
    by apply (IdSetFacts.ToDenseId_ToSparseId _ _ _ (b_uwf _ _ _ Hb)).
Qed.

Lemma idense_ToSparseId table p set d itemId rec :
  built table p set -> rec ∈ table ->
  SparseIdSet.ToSparseId (ItemIdSet set) d = Some itemId ->
  idense set rec = d <-> item_of rec = itemId.
Proof.
  intros Hb Hin Hd. split.
  - intros <-.
    pose proof (IdSetFacts.ToSparseId_ToDenseId _ _ (b_iwf _ _ _ Hb) (b_ireg _ _ _ Hb _ Hin)) as E.
    unfold idense in Hd. congruence.
  - intros Hu. unfold idense. rewrite Hu.
    by apply (IdSetFacts.ToDenseId_ToSparseId _ _ _ (b_iwf _ _ _ Hb)).
Qed.

(** X5. The vector of a user holds exactly the records of that user, in
    the order of the raw table: one pair (dense item id, rating) per record,
    and nothing else. The vector of an item holds exactly the records of
    that item as pairs (dense user id, rating). *)
Theorem NewDataSet_rows (table : Table.t) :
  exists dataSet,
    NewDataSet table = Some dataSet
    /\ (forall d userId,
          SparseIdSet.ToSparseId (UserIdSet dataSet) d = Some userId ->
          exists vec,
            index (DenseUserRatings dataSet) d = Some vec
            /\ length (SparseVector.Indices vec) = length (SparseVector.Values vec)
            /\ SparseVector.pairs vec
               = map (fun rec => (SparseIdSet.ToDenseId (ItemIdSet dataSet) (item_of rec),
                                  rating_of rec))
                     (filter (fun rec => user_of rec = userId) table))
    /\ (forall d itemId,
          SparseIdSet.ToSparseId (ItemIdSet dataSet) d = Some itemId ->
          exists vec,
            index (DenseItemRatings dataSet) d = Some vec
            /\ length (SparseVector.Indices vec) = length (SparseVector.Values vec)
            /\ SparseVector.pairs vec
               = map (fun rec => (SparseIdSet.ToDenseId (UserIdSet dataSet) (user_of rec),
                                  rating_of rec))
                     (filter (fun rec => item_of rec = itemId) table)).
Proof.
  destruct (NewDataSet_built table) as (dataSet & E & Hb).
  exists dataSet. split; [exact E|]. split.
  - intros d userId Hd. pose proof (index_lt _ _ _ Hd) as Hrange.
    eexists. split; [exact (b_urows _ _ _ Hb d Hrange)|].
    split. { cbn. by rewrite !length_fmap. }
    rewrite pairs_vector_of. apply row_filter.
    intros rec Hin. by apply (udense_ToSparseId table table).
  - intros d itemId Hd. pose proof (index_lt _ _ _ Hd) as Hrange.
    eexists. split; [exact (b_irows _ _ _ Hb d Hrange)|].
    split. { cbn. by rewrite !length_fmap. }
    rewrite pairs_vector_of. apply row_filter.
    intros rec Hin. by apply (idense_ToSparseId table table).
Qed.

(** X5 for the dense user id 0 of [sample_table], the user 5, who has the
    records 0, 2 and 3. *)
Lemma NewDataSet_rows_witness :
  exists dataSet vec,
    NewDataSet sample_table = Some dataSet
    /\ index (DenseUserRatings dataSet) 0 = Some vec
    /\ SparseVector.pairs vec = [(0, 3%float); (1, 1%float); (0, 2%float)].
Proof.
  destruct (NewDataSet_rows sample_table) as (dataSet & E & H & _).
  destruct (H 0 5) as (vec & Hvec & _ & Hpairs).
  - vm_compute in E. injection E as <-. reflexivity.
  - exists dataSet, vec. split; [exact E|]. split; [exact Hvec|].
    rewrite Hpairs. vm_compute in E. injection E as <-. reflexivity.
Defined.

Lemma NoDup_index_eq (l : list Z) i j x :
  NoDup l -> index l i = Some x -> index l j = Some x -> i = j.
Proof.
  intros Hnd [Hi Hx]%index_Some [Hj Hy]%index_Some.
  pose proof (NoDup_lookup _ _ _ _ Hnd Hx Hy). lia.
Qed.

(** X6. When the user ids of the records are pairwise distinct, the dense
    user id of record [i] is [i] and there are as many users as records;
    the same holds for the item ids. This is what the loader tests check. *)
Theorem distinct_ids_dense_is_position (table : Table.t) :
  exists dataSet,
    NewDataSet table = Some dataSet
    /\ (NoDup (map user_of table) ->
        UserCount dataSet = Table.Len table
        /\ forall i, 0 <= i < Table.Len table -> index (DenseUserIds dataSet) i = Some i)
    /\ (NoDup (map item_of table) ->
        ItemCount dataSet = Table.Len table
        /\ forall i, 0 <= i < Table.Len table -> index (DenseItemIds dataSet) i = Some i).
Proof.
  destruct (NewDataSet_built table) as (dataSet & E & Hb).
  exists dataSet. split; [exact E|].
  destruct (built_SparseIds _ _ _ Hb) as [Hu Hi]. split.
  - intros Hnd. rewrite (first_seen_NoDup _ Hnd) in Hu. split.
    { unfold UserCount, SparseIdSet.Len, Table.Len, len. by rewrite Hu, length_map. }
    intros i Hrange. destruct (index_is_Some table i Hrange) as [rec Hrec].
    rewrite (b_uids _ _ _ Hb), (index_map _ _ _ _ Hrec). f_equal.
    pose proof (Get_elem_of _ _ _ Hrec) as Hin.
    pose proof (IdSetFacts.ToSparseId_ToDenseId _ _ (b_uwf _ _ _ Hb) (b_ureg _ _ _ Hb _ Hin)) as Hd.
    unfold SparseIdSet.ToSparseId in Hd. rewrite Hu in Hd.
    apply (NoDup_index_eq _ _ _ _ Hnd Hd). by apply index_map.
  - intros Hnd. rewrite (first_seen_NoDup _ Hnd) in Hi. split.
    { unfold ItemCount, SparseIdSet.Len, Table.Len, len. by rewrite Hi, length_map. }
    intros i Hrange. destruct (index_is_Some table i Hrange) as [rec Hrec].
    rewrite (b_iids _ _ _ Hb), (index_map _ _ _ _ Hrec). f_equal.
    pose proof (Get_elem_of _ _ _ Hrec) as Hin.
    pose proof (IdSetFacts.ToSparseId_ToDenseId _ _ (b_iwf _ _ _ Hb) (b_ireg _ _ _ Hb _ Hin)) as Hd.
    unfold SparseIdSet.ToSparseId in Hd. rewrite Hi in Hd.
    apply (NoDup_index_eq _ _ _ _ Hnd Hd). by apply index_map.
Qed.

(** X6 on the records of the loader tests. *)
Lemma distinct_ids_dense_is_position_witness :
  exists dataSet,
    NewDataSet explicit_table = Some dataSet
    /\ UserCount dataSet = 5
    /\ index (DenseUserIds dataSet) 4 = Some 4
    /\ index (DenseItemIds dataSet) 4 = Some 4.
Proof.
  destruct (distinct_ids_dense_is_position explicit_table) as (dataSet & E & Hu & Hi).
  exists dataSet. split; [exact E|].
  destruct Hu as [Hcount Hu]. { apply (bool_decide_unpack (NoDup _)). by vm_compute. }
  destruct Hi as [_ Hi]. { apply (bool_decide_unpack (NoDup _)). by vm_compute. }
  split; [exact Hcount|]. split; [apply Hu|apply Hi]; by vm_compute.
Defined.

(** X7. [GetDense(i)] returns for the positions [0 <= i < Len()] and
    panics for every other [i], negative ones included. *)
Theorem GetDense_bounds (table : Table.t) :
  exists dataSet,
    NewDataSet table = Some dataSet
    /\ forall i,
         (0 <= i < Table.Len table -> is_Some (GetDense dataSet i))
         /\ (~ 0 <= i < Table.Len table -> GetDense dataSet i = None).
Proof.
  destruct (NewDataSet_built table) as (dataSet & E & Hb).
  exists dataSet. split; [exact E|]. intros i. split.
  - intros Hi. destruct (index_is_Some table i Hi) as [[[u it] r] Hrec].
    exists (udense dataSet (u, it, r), idense dataSet (u, it, r), r).
    apply (GetDense_eq _ _ u it).
    + by rewrite (b_table _ _ _ Hb).
    + rewrite (b_uids _ _ _ Hb). by apply index_map.
    + rewrite (b_iids _ _ _ Hb). by apply index_map.
  - intros Hi. unfold GetDense, Table.Get. rewrite (b_table _ _ _ Hb).
    destruct (index table i) as [rec|] eqn:Hrec; [|done].
    apply index_lt in Hrec. by destruct Hi.
Qed.

(** X7 at the positions 3, 4 and -1 of [sample_table], which has four
    records. *)
Lemma GetDense_bounds_witness :
  exists dataSet,
    NewDataSet sample_table = Some dataSet
    /\ is_Some (GetDense dataSet 3)
    /\ GetDense dataSet 4 = None
    /\ GetDense dataSet (-1) = None.
Proof.
  destruct (GetDense_bounds sample_table) as (dataSet & E & H).
  exists dataSet. split; [exact E|].
  split; [apply (H 3); by vm_compute|].
  split; [apply (H 4)|apply (H (-1))]; vm_compute; intros [H1 H2]; congruence.
Defined.

(** The ratings [last_rating] chooses from in the vector of the user
    [userId], read off the raw table. *)
Lemma omap_row_table table p set userId itemId (l : list (Z * Z * float)) :
  built table p set ->
  is_Some (SparseIdSet.DenseIds (UserIdSet set) !! userId) ->
  (forall rec, rec ∈ l -> rec ∈ table) ->
  omap (fun pr : Z * float =>
          if decide (SparseIdSet.ToSparseId (ItemIdSet set) pr.1 = Some itemId)
          then Some pr.2 else None)
       (row (udense set) (idense set) l (SparseIdSet.ToDenseId (UserIdSet set) userId))
  = map rating_of
      (filter (fun rec => user_of rec = userId /\ item_of rec = itemId) l).
Proof.
  intros Hb Hreg. induction l as [|rec l IH]; intros Hsub; [done|].
  assert (rec ∈ table) as Hin by (apply Hsub; by left).
  assert (forall rec', rec' ∈ l -> rec' ∈ table) as Hsub'.
  { intros rec' Hin'. apply Hsub. by right. }
  pose proof (IdSetFacts.ToSparseId_ToDenseId _ _ (b_uwf _ _ _ Hb) Hreg) as Hd.
  pose proof (udense_ToSparseId _ _ _ _ _ rec Hb Hin Hd) as Hu.
  pose proof (IdSetFacts.ToSparseId_ToDenseId _ _ (b_iwf _ _ _ Hb) (b_ireg _ _ _ Hb _ Hin)) as Hi.
  change (row (udense set) (idense set) (rec :: l) ?d)
    with ((if decide (udense set rec = d) then [(idense set rec, rating_of rec)] else [])
          ++ row (udense set) (idense set) l d).
  rewrite omap_app, (IH Hsub').
  destruct (decide (udense set rec = _)) as [Hk|Hk].
  - cbn [omap list_omap fst snd]. fold (idense set rec) in Hi.
    destruct (decide (SparseIdSet.ToSparseId (ItemIdSet set) (idense set rec) = Some itemId))
      as [Hit|Hit]; rewrite Hi in Hit.
    + injection Hit as Hit. rewrite filter_cons_True; [done|]. split; [by apply Hu|done].
    + rewrite filter_cons_False; [done|]. intros [_ Hit']. apply Hit. by rewrite Hit'.
  - rewrite filter_cons_False; [done|]. intros [Hu' _]. by apply Hk, Hu.
Qed.

(** X8. For every user id that occurs in the raw table,
    [GetUserRatingsSet] returns a map that holds, for each item id, the
    rating of the last record of the raw table with that user and that
    item, and no entry for an item the user has no record of. *)
Theorem GetUserRatingsSet_of_table (table : Table.t) :
  exists dataSet,
    NewDataSet table = Some dataSet
    /\ forall userId,
         userId ∈ map user_of table ->
         exists set,
           GetUserRatingsSet dataSet userId = Some set
           /\ forall itemId,
                set !! itemId
                = last (map rating_of
                          (filter (fun rec => user_of rec = userId /\ item_of rec = itemId)
                                  table)).
Proof.
  destruct (NewDataSet_built table) as (dataSet & E & Hb).
  exists dataSet. split; [exact E|]. intros userId Hin.
  apply (built_registered_user _ _ _ _ Hb) in Hin as Hreg.
  pose proof (IdSetFacts.ToDenseId_range _ _ (b_uwf _ _ _ Hb) Hreg) as Hd.
  pose proof (b_urows _ _ _ Hb _ Hd) as Hvec.
  destruct (GetUserRatingsSet_spec dataSet userId _ Hvec) as (set & Hget & _ & Hlook).
  { cbn. by rewrite !length_fmap. }
  { intros pr. by apply built_row_convertible. }
  exists set. split; [exact Hget|]. intros itemId.
  rewrite Hlook, pairs_vector_of. unfold last_rating.
  by rewrite (omap_row_table table table dataSet userId itemId table Hb Hreg).
Qed.

(** X8 for user 5 of [sample_table]: the records (5, 7, 3.0) and
    (5, 7, 2.0) give 2.0 for item 7, and user 5 has no record of item 9. *)
Lemma GetUserRatingsSet_of_table_witness :
  exists dataSet set,
    NewDataSet sample_table = Some dataSet
    /\ GetUserRatingsSet dataSet 5 = Some set
    /\ set !! 7 = Some 2%float
    /\ set !! 9 = None.
Proof.
  destruct (GetUserRatingsSet_of_table sample_table) as (dataSet & E & H).
  destruct (H 5) as (set & Hget & Hlook).
  - apply (bool_decide_unpack (_ ∈ _)). by vm_compute.
  - exists dataSet, set. split; [exact E|]. split; [exact Hget|].
    rewrite !Hlook. split; reflexivity.
Defined.

(** * More about the CSV loader *)

Lemma scan_lines_filter_kept
    (ParseFloat : string -> Z -> float * option strconv.NumError)
    (sep : string) (lines : list string) (st : loader) :
  hasHeader st = false ->
  scan_lines ParseFloat sep lines st
  = scan_lines ParseFloat sep (filter (kept sep) lines) st.
Proof.
  revert st. induction lines as [|line rest IH]; intros st Hh; [done|].
  destruct (kept sep line) eqn:Ek.
  - rewrite filter_cons_True by (by rewrite Ek). cbn [scan_lines].
    destruct (scan_line ParseFloat sep line st) as [st'|] eqn:E; [|done].
    apply IH. by apply (scan_line_header_off ParseFloat sep line st).
  - rewrite filter_cons_False by (rewrite Ek; exact id). cbn [scan_lines].
    rewrite (scan_line_skipped ParseFloat sep line st Hh Ek). by apply IH.
Qed.

Lemma kept_empty_line (sep : string) : kept sep EmptyString = false.
Proof. by destruct sep. Qed.

(** X9. [LoadDataFromCSV] returns exactly when no parsed line splits into
    exactly two fields, and panics otherwise; when it returns, the DataSet
    has one record per parsed line with at least three fields. *)
Theorem LoadDataFromCSV_returns_iff
    (ParseFloat : string -> Z -> float * option strconv.NumError)
    (lines : list string) (sep : string) (hasHeader : bool) :
  (is_Some (LoadDataFromCSV ParseFloat lines sep hasHeader)
   <-> forall line, line ∈ data_lines lines hasHeader ->
         length (strings.Split line sep) <> 2%nat)
  /\ (LoadDataFromCSV ParseFloat lines sep hasHeader = None
      <-> exists line, line ∈ data_lines lines hasHeader
            /\ length (strings.Split line sep) = 2%nat)
  /\ forall dataSet,
       LoadDataFromCSV ParseFloat lines sep hasHeader = Some dataSet ->
       Table.Len (Table_ dataSet)
       = len (filter (fun line => (3 <= length (strings.Split line sep))%nat)
                     (data_lines lines hasHeader)).
Proof.
  assert ((forall line, line ∈ data_lines lines hasHeader ->
             length (strings.Split line sep) <> 2%nat) ->
          exists dataSet,
            LoadDataFromCSV ParseFloat lines sep hasHeader = Some dataSet
            /\ Table_ dataSet
               = map (record_of ParseFloat sep)
                     (filter (kept sep) (data_lines lines hasHeader))) as Hok.
  { intros Hno. rewrite LoadDataFromCSV_data_lines. unfold LoadDataFromCSV.
    rewrite (scan_lines_records ParseFloat sep _ (mkLoader [] [] [] false) eq_refl Hno).
    cbn [mbind option_bind users items ratings app].
    rewrite NewDataTable_records.
    destruct (NewDataSet_built
                (map (record_of ParseFloat sep)
                     (filter (kept sep) (data_lines lines hasHeader))))
      as (dataSet & E & Hb).
    exists dataSet. split; [exact E|]. exact (b_table _ _ _ Hb). }
  assert (forall line, line ∈ data_lines lines hasHeader ->
            length (strings.Split line sep) = 2%nat ->
            LoadDataFromCSV ParseFloat lines sep hasHeader = None) as Hbad.
  { intros line Hin Hlen. rewrite LoadDataFromCSV_data_lines. unfold LoadDataFromCSV.
    by rewrite (scan_lines_panic ParseFloat sep _ (mkLoader [] [] [] false) line eq_refl Hin Hlen). }
  assert (is_Some (LoadDataFromCSV ParseFloat lines sep hasHeader)
          <-> forall line, line ∈ data_lines lines hasHeader ->
                length (strings.Split line sep) <> 2%nat) as Hiff.
  { split.
    - intros [dataSet E] line Hin Hlen. rewrite (Hbad line Hin Hlen) in E. discriminate E.
    - intros Hno. destruct (Hok Hno) as (dataSet & E & _). by exists dataSet. }
  split; [exact Hiff|]. split.
  - split.
    + intros Hnone.
      destruct (decide (Exists (fun line => length (strings.Split line sep) = 2%nat)
                               (data_lines lines hasHeader))) as [Hex|Hnex].
      * apply Exists_exists in Hex as (line & Hin & Hlen). by exists line.
      * assert (is_Some (LoadDataFromCSV ParseFloat lines sep hasHeader)) as [ds E].
        { apply Hiff. intros line Hin Hlen. apply Hnex, Exists_exists. by exists line. }
        rewrite Hnone in E. discriminate E.
    + intros (line & Hin & Hlen). by apply (Hbad line).
  - intros dataSet E.
    assert (forall line, line ∈ data_lines lines hasHeader ->
              length (strings.Split line sep) <> 2%nat) as Hno.
    { apply Hiff. by exists dataSet. }
    destruct (Hok Hno) as (dataSet' & E' & Ht). rewrite E in E'. injection E' as <-.
    rewrite Ht. unfold Table.Len, len. rewrite length_map. do 2 f_equal.
    clear -Hno. induction (data_lines lines hasHeader) as [|line l IH]; [done|].
    assert (length (strings.Split line sep) <> 2%nat) as Hline by (apply Hno; by left).
    assert (filter (kept sep) l
            = filter (fun line => (3 <= length (strings.Split line sep))%nat) l) as IH'.
    { apply IH. intros l' Hl'. apply Hno. by right. }
    destruct (decide (3 <= length (strings.Split line sep))%nat) as [H3|H3].
    + rewrite filter_cons_True.
      * rewrite (filter_cons_True (fun line => (3 <= length (strings.Split line sep))%nat))
          by done. by rewrite IH'.
      * unfold kept. apply bool_decide_pack. unfold len. lia.
    + rewrite filter_cons_False.
      * rewrite (filter_cons_False (fun line => (3 <= length (strings.Split line sep))%nat))
          by done. exact IH'.
      * unfold kept. intros Hk%bool_decide_unpack. unfold len in Hk. lia.
Qed.

Open Scope string_scope.

(** X9 on a file with a header, two well-formed lines and a blank line,
    and on a file whose only line is one two-byte UTF-8 sequence (195, 169),
    read with the empty separator: it is one field, and the line is
    skipped. *)
Lemma LoadDataFromCSV_returns_iff_witness :
  (exists dataSet,
     LoadDataFromCSV strconv.ParseFloat_decimal
       ["user,item,rating,time"; "1,2,3.5,881250949"; ""; "2,2,4"] "," true
     = Some dataSet
     /\ Table.Len (Table_ dataSet) = 2)
  /\ is_Some (LoadDataFromCSV strconv.ParseFloat_decimal
                [String (ascii_of_nat 195) (String (ascii_of_nat 169) EmptyString)]
                "" false).
Proof.
  split.
  - destruct (LoadDataFromCSV_returns_iff strconv.ParseFloat_decimal
                ["user,item,rating,time"; "1,2,3.5,881250949"; ""; "2,2,4"] "," true)
      as (Hiff & _ & Hlen).
    destruct (proj2 Hiff) as [dataSet E].
    + intros line Hin. cbn in Hin.
      repeat (apply elem_of_cons in Hin as [->|Hin]); try (by vm_compute).
      by apply elem_of_nil in Hin.
    + exists dataSet. split; [exact E|]. by rewrite (Hlen dataSet E).
  - apply (LoadDataFromCSV_returns_iff strconv.ParseFloat_decimal).
    intros line [->|Hin]%elem_of_cons; [by vm_compute|].
    by apply elem_of_nil in Hin.
Defined.

Close Scope string_scope.

(** X10. The header line, empty lines and every other line with fewer than
    two fields have no effect on what [LoadDataFromCSV] does: it behaves as
    on the file made of the remaining lines, with no header. An empty line
    is skipped whatever the separator. *)
Theorem LoadDataFromCSV_ignores_short_lines
    (ParseFloat : string -> Z -> float * option strconv.NumError)
    (lines : list string) (sep : string) (hasHeader : bool) :
  LoadDataFromCSV ParseFloat lines sep hasHeader
  = LoadDataFromCSV ParseFloat (filter (kept sep) (data_lines lines hasHeader)) sep false
  /\ kept sep EmptyString = false
  /\ LoadDataFromCSV ParseFloat (EmptyString :: lines) sep false
     = LoadDataFromCSV ParseFloat lines sep false.
Proof.
  split; [|split; [apply kept_empty_line|]].
  - rewrite LoadDataFromCSV_data_lines. unfold LoadDataFromCSV.
    by rewrite (scan_lines_filter_kept ParseFloat sep (data_lines lines hasHeader)
                  (mkLoader [] [] [] false) eq_refl).
  - unfold LoadDataFromCSV. cbn [scan_lines].
    by rewrite (scan_line_skipped ParseFloat sep EmptyString (mkLoader [] [] [] false)
                  eq_refl (kept_empty_line sep)).
Qed.

(** * The Netflix loader *)

Section Netflix.
Import netflix.

Lemma netflix_header_line line st :
  is_header line = true -> line_ok line = true ->
  scan_line line st
  = Returned {| users := users st; items := items st; ratings := ratings st;
                itemId := (strconv.Atoi (without_last_byte line)).1 |}.
Proof.
  unfold is_header, line_ok, scan_line.
  destruct (last_byte line) as [c|]; [|done]. intros -> Hok%bool_decide_eq_true.
  destruct (strconv.Atoi (without_last_byte line)) as [id err]. cbn in Hok. by subst err.
Qed.

Lemma netflix_rating_line line st :
  is_rating line = true -> line_ok line = true ->
  scan_line line st
  = Returned {| users := users st ++ [(netflix_record [] line).1.1];
                items := items st ++ [itemId st];
                ratings := ratings st ++ [(netflix_record [] line).2];
                itemId := itemId st |}.
Proof.
  unfold is_rating, line_ok, scan_line.
  destruct (last_byte line) as [c|]; [|done].
  destruct (Ascii.eqb c ":"); [done|]. intros _ Hok%bool_decide_eq_true.
  unfold len in Hok.
  rewrite (index_nth _ 0), (index_nth _ 1) by lia. reflexivity.
Qed.

Lemma netflix_bad_line line st :
  line_ok line = false ->
  scan_line line st = if is_header line then Exited else Panicked.
Proof.
  unfold is_header, line_ok, scan_line.
  destruct (last_byte line) as [c|]; [|done].
  destruct (Ascii.eqb c ":").
  - intros Hbad%bool_decide_eq_false.
    destruct (strconv.Atoi (without_last_byte line)) as [id [err|]]; [done|].
    by destruct Hbad.
  - intros Hbad%bool_decide_eq_false. unfold len in Hbad.
    destruct (index (strings.Split line ",") 0) as [field0|]; [|done].
    destruct (index (strings.Split line ",") 1) as [field1|] eqn:E1; [|done].
    apply index_lt in E1. unfold len in E1. lia.
Qed.

Lemma header_or_rating line :
  line_ok line = true ->
  (is_header line = true /\ is_rating line = false)
  \/ (is_header line = false /\ is_rating line = true).
Proof.
  unfold line_ok, is_header, is_rating. destruct (last_byte line) as [c|]; [|done].
  destruct (Ascii.eqb c ":"); auto.
Qed.

Lemma netflix_scan_app l1 l2 st :
  scan_lines (l1 ++ l2) st
  = match scan_lines l1 st with
    | Returned st1 => scan_lines l2 st1
    | Panicked => Panicked
    | Exited => Exited
    end.
Proof.
  revert st. induction l1 as [|line l1 IH]; intros st; [done|].
  cbn. destruct (scan_line line st); [apply IH|done..].
Qed.

Lemma item_after_header id pre line :
  is_header line = true ->
  item_after id (line :: pre)
  = item_after (strconv.Atoi (without_last_byte line)).1 pre.
Proof.
  intros Hh. unfold item_after. rewrite filter_cons_True by (by rewrite Hh).
  rewrite last_cons. by destruct (last (filter is_header pre)).
Qed.

Lemma item_after_rating id pre line :
  is_header line = false -> item_after id (line :: pre) = item_after id pre.
Proof.
  intros Hh. unfold item_after. by rewrite filter_cons_False by (rewrite Hh; exact (fun H => H)).
Qed.

(** The loop on lines it gets through: every list grows by one entry per
    rating line, and the item id is that of the last header. *)
Lemma netflix_scan_ok lines st :
  Forall (fun line => line_ok line = true) lines ->
  exists us its rs,
    scan_lines lines st
    = Returned {| users := users st ++ us; items := items st ++ its;
                  ratings := ratings st ++ rs;
                  itemId := item_after (itemId st) lines |}
    /\ length us = length (filter is_rating lines)
    /\ length its = length (filter is_rating lines)
    /\ length rs = length (filter is_rating lines).
Proof.
  intros Hok. revert st. induction Hok as [|line lines Hline _ IH]; intros st.
  - exists [], [], []. rewrite !app_nil_r. by destruct st.
  - cbn [scan_lines].
    destruct (header_or_rating line Hline) as [[Hh Hr]|[Hh Hr]].
    + rewrite (netflix_header_line _ _ Hh Hline).
      destruct (IH {| users := users st; items := items st; ratings := ratings st;
                      itemId := (strconv.Atoi (without_last_byte line)).1 |})
        as (us & its & rs & E & Hlen).
      exists us, its, rs. rewrite E. cbn [users items ratings itemId].
      rewrite (item_after_header _ _ _ Hh).
      by rewrite filter_cons_False by (rewrite Hr; exact (fun H => H)).
    + rewrite (netflix_rating_line _ _ Hr Hline).
      destruct (IH {| users := users st ++ [(netflix_record [] line).1.1];
                      items := items st ++ [itemId st];
                      ratings := ratings st ++ [(netflix_record [] line).2];
                      itemId := itemId st |})
        as (us & its & rs & E & Hu & Hi & Hrs).
      eexists (_ :: us), (_ :: its), (_ :: rs). rewrite E. cbn [users items ratings itemId].
      rewrite <- !app_assoc. cbn [app]. rewrite (item_after_rating _ _ _ Hh).
      rewrite filter_cons_True by (by rewrite Hr). cbn [length].
      by rewrite Hu, Hi, Hrs.
Qed.

(** The loop stops at the first line it does not get through. *)
Lemma netflix_scan_bad pre bad post st :
  Forall (fun line => line_ok line = true) pre ->
  line_ok bad = false ->
  scan_lines (pre ++ bad :: post) st = if is_header bad then Exited else Panicked.
Proof.
  intros Hpre Hbad. rewrite netflix_scan_app.
  destruct (netflix_scan_ok pre st Hpre) as (us & its & rs & -> & _).
  cbn [scan_lines]. rewrite (netflix_bad_line _ _ Hbad). by destruct (is_header bad).
Qed.

Lemma length_NewDataTable (us its : list Z) (rs : list float) n :
  length us = n -> length its = n -> length rs = n ->
  length (Table.NewDataTable us its rs) = n.
Proof.
  intros Hu Hi Hr. unfold Table.NewDataTable.
  rewrite !length_zip_with. lia.
Qed.


Lemma lookup_NewDataTable (us its : list Z) (rs : list float) (k : nat) u i r :
  us !! k = Some u -> its !! k = Some i -> rs !! k = Some r ->
  Table.NewDataTable us its rs !! k = Some (u, i, r).
Proof.
  intros Hu Hi Hr. unfold Table.NewDataTable.
  apply lookup_zip_with_Some. exists (u, i), r. split; [done|]. split; [|done].
  apply lookup_zip_with_Some. by exists u, i.
Qed.

(** The first line the loop does not get through, if there is one. *)
Lemma first_bad_line (lines : list string) :
  Forall (fun line => line_ok line = true) lines
  \/ exists pre bad post,
       lines = pre ++ bad :: post
       /\ Forall (fun line => line_ok line = true) pre
       /\ line_ok bad = false.
Proof.
  induction lines as [|line lines IH]; [by left|].
  destruct (line_ok line) eqn:Eline.
  - destruct IH as [Hok|(pre & bad & post & -> & Hpre & Hbad)].
    + left. by constructor.
    + right. exists (line :: pre), bad, post. split; [done|]. split; [by constructor|done].
  - right. exists [], line, lines. split; [done|]. split; [constructor|done].
Qed.

(** The table the loader builds from lines it gets through. *)
Lemma LoadDataFromNetflix_ok lines sep (h : bool) :
  Forall (fun line => line_ok line = true) lines ->
  exists us its rs dataSet,
    scan_lines lines
      {| users := []; items := []; ratings := []; itemId := -1 |}
    = Returned {| users := us; items := its; ratings := rs;
                  itemId := item_after (-1) lines |}
    /\ length us = length (filter is_rating lines)
    /\ length its = length (filter is_rating lines)
    /\ length rs = length (filter is_rating lines)
    /\ LoadDataFromNetflix lines sep h = Returned dataSet
    /\ Table_ dataSet = Table.NewDataTable us its rs.
Proof.
  intros Hok.
  destruct (netflix_scan_ok lines {| users := []; items := []; ratings := []; itemId := -1 |} Hok)
    as (us & its & rs & E & Hu & Hi & Hr).
  cbn [users items ratings itemId app] in E.
  destruct (NewDataSet_built (Table.NewDataTable us its rs)) as (dataSet & End & Hb).
  exists us, its, rs, dataSet. repeat (split; [done|]). split.
  - unfold LoadDataFromNetflix. rewrite E. cbn [users items ratings]. by rewrite End.
  - exact (b_table _ _ _ Hb).
Qed.

End Netflix.

(** X11. [LoadDataFromNetflix] returns exactly when every line is a header
    whose item id parses or a rating line with at least two fields. The
    first other line decides how it ends: [log.Fatal] for a header with a
    bad item id, a panic for an empty line or a rating line without a comma.
    When it returns, the DataSet has one record per rating line. *)
Theorem LoadDataFromNetflix_outcome (lines : list string) (sep : string) (hasHeader : bool) :
  ((exists dataSet, LoadDataFromNetflix lines sep hasHeader = Returned dataSet)
   <-> Forall (fun line => line_ok line = true) lines)
  /\ (forall pre bad post,
        lines = pre ++ bad :: post ->
        Forall (fun line => line_ok line = true) pre ->
        line_ok bad = false ->
        LoadDataFromNetflix lines sep hasHeader
        = if is_header bad then Exited else Panicked)
  /\ (forall dataSet,
        LoadDataFromNetflix lines sep hasHeader = Returned dataSet ->
        Table.Len (Table_ dataSet) = len (filter is_rating lines))
  /\ line_ok EmptyString = false
  /\ is_header EmptyString = false.
Proof.
  assert (forall pre bad post,
            lines = pre ++ bad :: post ->
            Forall (fun line => line_ok line = true) pre ->
            line_ok bad = false ->
            LoadDataFromNetflix lines sep hasHeader
            = if is_header bad then Exited else Panicked) as Hbad.
  { intros pre bad post -> Hpre Hb. unfold LoadDataFromNetflix.
    rewrite (netflix_scan_bad pre bad post _ Hpre Hb). by destruct (is_header bad). }
  assert ((exists dataSet, LoadDataFromNetflix lines sep hasHeader = Returned dataSet)
          -> Forall (fun line => line_ok line = true) lines) as Hret.
  { intros [dataSet E].
    destruct (first_bad_line lines) as [Hok|(pre & bad & post & Hl & Hpre & Hb)]; [done|].
    rewrite (Hbad pre bad post Hl Hpre Hb) in E. by destruct (is_header bad). }
  split; [split; [exact Hret|]|split; [exact Hbad|split; [|done]]].
  - intros Hok.
    destruct (LoadDataFromNetflix_ok lines sep hasHeader Hok)
      as (us & its & rs & dataSet & _ & _ & _ & _ & E & _).
    by exists dataSet.
  - intros dataSet E.
    assert (Forall (fun line => line_ok line = true) lines) as Hok.
    { apply Hret. by exists dataSet. }
    destruct (LoadDataFromNetflix_ok lines sep hasHeader Hok)
      as (us & its & rs & dataSet' & _ & Hu & Hi & Hr & E' & Ht).
    rewrite E in E'. injection E' as <-. rewrite Ht.
    unfold Table.Len, len. f_equal. by apply length_NewDataTable.
Qed.

Open Scope string_scope.

(** X11 on a file whose third line is empty: the loader panics. *)
Lemma LoadDataFromNetflix_outcome_witness :
  LoadDataFromNetflix ["1:"; "7,3,2005-09-06"; ""; "8,4,2005-09-07"] "," true = Panicked.
Proof.
  destruct (LoadDataFromNetflix_outcome
              ["1:"; "7,3,2005-09-06"; ""; "8,4,2005-09-07"] "," true) as (_ & H & _).
  apply (H ["1:"; "7,3,2005-09-06"] "" ["8,4,2005-09-07"]).
  - reflexivity.
  - repeat constructor.
  - reflexivity.
Defined.

Close Scope string_scope.

(** X12. When the loader gets through every line, the record of a rating
    line holds the user id and the rating [Atoi] read from its first two
    fields and the item id of the nearest header line before it; a rating
    line that comes before every header gets the item id -1. The records
    are in the order of the rating lines. *)
Theorem LoadDataFromNetflix_records
    (pre : list string) (line : string) (post : list string)
    (sep : string) (hasHeader : bool) :
  Forall (fun l => line_ok l = true) (pre ++ line :: post) ->
  is_rating line = true ->
  exists dataSet,
    LoadDataFromNetflix (pre ++ line :: post) sep hasHeader = Returned dataSet
    /\ Table.Get (Table_ dataSet) (len (filter is_rating pre))
       = Some (netflix_record pre line)
    /\ (Forall (fun l => is_header l = false) pre ->
        item_of (netflix_record pre line) = -1).
Proof.
  intros Hok Hr.
  apply Forall_app in Hok as Hok'. destruct Hok' as [Hpre Hrest].
  apply Forall_cons in Hrest as [Hline Hpost].
  destruct (LoadDataFromNetflix_ok _ sep hasHeader Hok)
    as (us & its & rs & dataSet & Escan & _ & _ & _ & E & Ht).
  exists dataSet. split; [exact E|]. split.
  - rewrite netflix_scan_app in Escan.
    destruct (netflix_scan_ok pre
                {| netflix.users := []; netflix.items := []; netflix.ratings := [];
                   netflix.itemId := -1 |} Hpre)
      as (us1 & its1 & rs1 & E1 & Hu1 & Hi1 & Hr1).
    rewrite E1 in Escan. cbn [netflix.scan_lines] in Escan.
    rewrite (netflix_rating_line _ _ Hr Hline) in Escan.
    match type of Escan with
    | netflix.scan_lines post ?st2 = _ =>
        destruct (netflix_scan_ok post st2 Hpost) as (us3 & its3 & rs3 & E3 & _)
    end.
    rewrite E3 in Escan. injection Escan as <- <- <- _.
    cbn [netflix.users netflix.items netflix.ratings netflix.itemId app].
    rewrite Ht. unfold Table.Get, len. rewrite index_of_nat.
    apply lookup_NewDataTable.
    + rewrite <- Hu1. rewrite lookup_app_l by (rewrite length_app; cbn; lia).
      by rewrite list_lookup_middle.
    + rewrite <- Hi1. rewrite lookup_app_l by (rewrite length_app; cbn; lia).
      by rewrite list_lookup_middle.
    + rewrite <- Hr1. rewrite lookup_app_l by (rewrite length_app; cbn; lia).
      by rewrite list_lookup_middle.
  - intros Hno. unfold netflix_record, item_of, current_item. cbn [fst snd].
    assert (filter is_header pre = []) as ->; [|done].
    clear -Hno. induction Hno as [|l pre Hl _ IH]; [done|].
    rewrite filter_cons_False; [exact IH|]. rewrite Hl. exact (fun H => H).
Qed.

Open Scope string_scope.

(** X12 on a file with a rating line before the first header and, after
    it, a rating line whose user id overflows before a byte that is no
    digit. *)
Lemma LoadDataFromNetflix_records_witness :
  exists dataSet,
    LoadDataFromNetflix ["5,4,2005-09-06"; "3:"; "99999999999999999999x,4,2005"] "," true
    = Returned dataSet
    /\ Table.Get (Table_ dataSet) 1 = Some (9223372036854775807, 3, 4%float).
Proof.
  destruct (LoadDataFromNetflix_records ["5,4,2005-09-06"; "3:"]
              "99999999999999999999x,4,2005" [] "," true) as (dataSet & E & Hget & _).
  - repeat constructor.
  - reflexivity.
  - exists dataSet. split; [exact E|]. exact Hget.
Defined.

Close Scope string_scope.

(** * The two indices against each other, and the loaders' results *)

Lemma elem_of_row_iff key other (p : Table.t) d (pr : Z * float) :
  pr ∈ row key other p d
  <-> exists rec, rec ∈ p /\ key rec = d /\ other rec = pr.1 /\ rating_of rec = pr.2.
Proof.
  split.
  - intros (rec & Hin & Hk & ->)%elem_of_row_inv. by exists rec.
  - intros (rec & Hin & <- & Ho & Hr). destruct pr as [idx v]. cbn in Ho, Hr. subst.
    by apply elem_of_row.
Qed.

(** X13. The two indices hold the same observations: the vector of the
    dense user [du] holds the pair [(di, r)] exactly when the vector of the
    dense item [di] holds the pair [(du, r)]. *)
Theorem dual_index_symmetry (table : Table.t) :
  exists dataSet,
    NewDataSet table = Some dataSet
    /\ forall du di r uvec ivec,
         index (DenseUserRatings dataSet) du = Some uvec ->
         index (DenseItemRatings dataSet) di = Some ivec ->
         (di, r) ∈ SparseVector.pairs uvec <-> (du, r) ∈ SparseVector.pairs ivec.
Proof.
  destruct (NewDataSet_built table) as (dataSet & E & Hb).
  exists dataSet. split; [exact E|]. intros du di r uvec ivec Hu Hi.
  pose proof (index_lt _ _ _ Hu) as Hdu. rewrite (b_ulen _ _ _ Hb) in Hdu.
  pose proof (index_lt _ _ _ Hi) as Hdi. rewrite (b_ilen _ _ _ Hb) in Hdi.
  rewrite (b_urows _ _ _ Hb _ Hdu) in Hu. injection Hu as <-.
  rewrite (b_irows _ _ _ Hb _ Hdi) in Hi. injection Hi as <-.
  rewrite !pairs_vector_of, !elem_of_row_iff. cbn [fst snd].
  split; intros (rec & Hin & H1 & H2 & H3); exists rec; by repeat split.
Qed.

(** X13 for the dense user 0 and the dense item 1 of [sample_table]: the
    record (5, 8, 1.0). *)
Lemma dual_index_symmetry_witness :
  exists dataSet ivec,
    NewDataSet sample_table = Some dataSet
    /\ index (DenseItemRatings dataSet) 1 = Some ivec
    /\ (0, 1%float) ∈ SparseVector.pairs ivec.
Proof.
  destruct (dual_index_symmetry sample_table) as (dataSet & E & H).
  pose proof E as E'. vm_compute in E'. injection E' as <-.
  eexists _, _. split; [exact E|]. split; [reflexivity|].
  eapply (H 0 1 1%float); [reflexivity|reflexivity|].
  vm_compute. right. left.
Defined.

(** X14. In a DataSet the two conversions of each id set are inverse to
    each other: a dense id in range converts to a sparse id that converts
    back to it, and a registered sparse id converts to a dense id that
    converts back to it. *)
Theorem id_conversions_inverse (table : Table.t) :
  exists dataSet,
    NewDataSet table = Some dataSet
    /\ (forall d, 0 <= d < UserCount dataSet ->
          exists userId,
            SparseIdSet.ToSparseId (UserIdSet dataSet) d = Some userId
            /\ SparseIdSet.ToDenseId (UserIdSet dataSet) userId = d)
    /\ (forall d, 0 <= d < ItemCount dataSet ->
          exists itemId,
            SparseIdSet.ToSparseId (ItemIdSet dataSet) d = Some itemId
            /\ SparseIdSet.ToDenseId (ItemIdSet dataSet) itemId = d)
    /\ (forall userId, userId ∈ map user_of table ->
          SparseIdSet.ToSparseId (UserIdSet dataSet)
            (SparseIdSet.ToDenseId (UserIdSet dataSet) userId) = Some userId)
    /\ (forall itemId, itemId ∈ map item_of table ->
          SparseIdSet.ToSparseId (ItemIdSet dataSet)
            (SparseIdSet.ToDenseId (ItemIdSet dataSet) itemId) = Some itemId).
Proof.
  destruct (NewDataSet_built table) as (dataSet & E & Hb).
  exists dataSet. split; [exact E|]. split; [|split; [|split]].
  - intros d Hd. destruct (index_is_Some _ _ Hd) as [userId Hs].
    exists userId. split; [exact Hs|].
    by apply (IdSetFacts.ToDenseId_ToSparseId _ _ _ (b_uwf _ _ _ Hb)).
  - intros d Hd. destruct (index_is_Some _ _ Hd) as [itemId Hs].
    exists itemId. split; [exact Hs|].
    by apply (IdSetFacts.ToDenseId_ToSparseId _ _ _ (b_iwf _ _ _ Hb)).
  - intros userId Hin.
    apply IdSetFacts.ToSparseId_ToDenseId; [exact (b_uwf _ _ _ Hb)|].
    by apply (built_registered_user table table).
  - intros itemId Hin.
    apply IdSetFacts.ToSparseId_ToDenseId; [exact (b_iwf _ _ _ Hb)|].
    by apply (built_registered_item table table).
Qed.

(** X14 for the dense item id 1 and the user id 6 of [sample_table]. *)
Lemma id_conversions_inverse_witness :
  exists dataSet,
    NewDataSet sample_table = Some dataSet
    /\ (exists itemId,
          SparseIdSet.ToSparseId (ItemIdSet dataSet) 1 = Some itemId
          /\ SparseIdSet.ToDenseId (ItemIdSet dataSet) itemId = 1)
    /\ SparseIdSet.ToSparseId (UserIdSet dataSet)
         (SparseIdSet.ToDenseId (UserIdSet dataSet) 6) = Some 6.
Proof.
  destruct (id_conversions_inverse sample_table) as (dataSet & E & _ & Hi & Hu & _).
  exists dataSet. split; [exact E|]. split.
  - apply Hi. vm_compute in E. injection E as <-. by vm_compute.
  - apply Hu. apply (bool_decide_unpack (_ ∈ _)). by vm_compute.
Defined.

(** X15. What a loader returns is the DataSet [NewDataSet] builds from the
    raw table it holds, so everything [NewDataSet] establishes holds of a
    loaded DataSet. *)
Theorem loaders_return_NewDataSet
    (ParseFloat : string -> Z -> float * option strconv.NumError)
    (lines : list string) (sep : string) (hasHeader : bool) (dataSet : DataSet) :
  (LoadDataFromCSV ParseFloat lines sep hasHeader = Some dataSet ->
   NewDataSet (Table_ dataSet) = Some dataSet)
  /\ (LoadDataFromNetflix lines sep hasHeader = Returned dataSet ->
      NewDataSet (Table_ dataSet) = Some dataSet).
Proof.
  split.
  - unfold LoadDataFromCSV.
    destruct (scan_lines ParseFloat sep lines _) as [st|]; [|done]. cbn.
    intros E. destruct (NewDataSet_built
                          (Table.NewDataTable (users st) (items st) (ratings st)))
      as (dataSet' & E' & Hb).
    rewrite E in E'. injection E' as <-. by rewrite (b_table _ _ _ Hb).
  - unfold LoadDataFromNetflix.
    destruct (netflix.scan_lines lines _) as [st| |]; [|done..].
    destruct (NewDataSet_built
                (Table.NewDataTable (netflix.users st) (netflix.items st)
                                    (netflix.ratings st)))
      as (dataSet' & E' & Hb).
    rewrite E'. intros [= <-]. by rewrite (b_table _ _ _ Hb).
Qed.

Open Scope string_scope.

(** X15 on a CSV file of two lines. *)
Lemma loaders_return_NewDataSet_witness :
  exists dataSet,
    LoadDataFromCSV strconv.ParseFloat_decimal ["1,2,3"; "4,5,6"] "," false = Some dataSet
    /\ NewDataSet (Table_ dataSet) = Some dataSet.
Proof.
  assert (is_Some (LoadDataFromCSV strconv.ParseFloat_decimal ["1,2,3"; "4,5,6"] "," false))
    as [dataSet E] by (vm_compute; eexists; reflexivity).
  exists dataSet. split; [exact E|].
  destruct (loaders_return_NewDataSet strconv.ParseFloat_decimal
              ["1,2,3"; "4,5,6"] "," false dataSet) as [H _].
  exact (H E).
Defined.

Close Scope string_scope.
